(** * Sphinxd reactor core: a shallow embedding of [src/sphinxd/src/reactor.cpp]

    The development follows the source file top to bottom: the socket
    handles ([TcpListener], [TcpSocket], [UdpSocket]) and their factories,
    then the process-wide mailbox fabric and the [Reactor] messaging
    operations.  Every operation is a computation in a small state monad
    over a [World]: the static tables of the process together with the
    log of what the code did to its surroundings (system calls with the
    kernel's answers, user callbacks).  A computation ends normally, with a
    C++ exception, or in undefined behaviour. *)

From stdpp Require Import base list strings gmap.
From Equations Require Import Equations.
From Stdlib Require Import ZArith Lia.

Open Scope Z_scope.

(** ** Values of the C++ program *)

(** [void*], [pthread_t] and file descriptors are machine integers. *)
Abbreviation ptr := Z.
Abbreviation pthread_t := Z.

(** [size_t(x)] on a 64-bit target. *)
Definition size_t_of (x : Z) : Z := x mod 2 ^ 64.

(** Constants of the Linux headers the file includes. *)
Definition ECONNRESET : Z := 104.
Definition EPIPE : Z := 32.
Definition MSG_DONTWAIT : Z := 64.
Definition MSG_NOSIGNAL : Z := 16384.
Definition SOCK_STREAM : Z := 1.
Definition SOCK_DGRAM : Z := 2.
Definition SOCK_NONBLOCK : Z := 2048.
Definition SOL_SOCKET : Z := 1.
Definition SO_REUSEADDR : Z := 2.
Definition SO_REUSEPORT : Z := 15.
Definition SIGUSR1 : Z := 10.
Definition SA_SIGINFO : Z := 4.
Definition SA_RESTART : Z := 268435456.
Definition SIG_BLOCK : Z := 0.
Definition AF_INET : Z := 2.
Definition AI_PASSIVE : Z := 1.
Definition AI_ADDRCONFIG : Z := 32.

(** [::sockaddr_storage]: an opaque blob. *)
Definition sockaddr_storage := list Z.

Record SockAddr := mkSockAddr { addr : sockaddr_storage; len : Z }.

(** One node of the [addrinfo] list returned by [getaddrinfo]. *)
Record addrinfo := mkAddrinfo {
  ai_family : Z;
  ai_socktype : Z;
  ai_protocol : Z;
  ai_addr : sockaddr_storage;
  ai_addrlen : Z
}.

(** ** Outcomes *)

Inductive exn :=
| system_error (code : Z) (what : string)
| runtime_error (what : string)
| invalid_argument (what : string).

(** The ways the source can leave the defined part of C++. *)
Inductive ub :=
| empty_optional_access
| array_index_out_of_bounds.

Inductive result (A : Type) :=
| Returned (a : A)
| Thrown (e : exn)
| Undefined (u : ub).
Arguments Returned {A} a.
Arguments Thrown {A} e.
Arguments Undefined {A} u.

(** ** The surroundings: system calls and callbacks *)

Inductive syscall :=
| sys_send (fd : Z) (msg : list Z) (n : Z) (flags : Z)
| sys_sendto (fd : Z) (msg : list Z) (n : Z) (flags : Z)
             (dst : sockaddr_storage) (dstlen : Z)
| sys_recv (fd : Z) (bufsize : Z) (flags : Z)
| sys_recvfrom (fd : Z) (bufsize : Z) (flags : Z) (addrlen : Z)
| sys_accept4 (fd : Z) (flags : Z)
| sys_socket (family type protocol : Z)
| sys_setsockopt (fd level optname value : Z)
| sys_bind (fd : Z) (a : sockaddr_storage) (alen : Z)
| sys_listen (fd backlog : Z)
| sys_close (fd : Z)
| sys_sigaction (sig flags : Z)
| sys_pthread_sigmask (how sig : Z)
| sys_pthread_self
| sys_pthread_kill (thread : pthread_t) (sig : Z)
| lib_getaddrinfo (iface : string) (port : Z)
                  (family socktype protocol flags : Z)
| lib_freeaddrinfo.

(** What the kernel hands back: the return value, [errno] after the call,
    the bytes now in the caller's buffer (by index), for [recvfrom] the
    peer address it stored, and for [getaddrinfo] the list it allocated. *)
Record reply := mkReply {
  ret : Z;
  errno : Z;
  buf : nat → Z;
  src_addr : sockaddr_storage;
  src_addr_len : Z;
  res : list addrinfo
}.

Inductive event :=
| Sys (c : syscall) (r : reply)
| accept_fn (connfd : Z)
| tcp_recv_fn (sockfd : Z) (payload : list Z)
| udp_recv_fn (sockfd : Z) (payload : list Z) (src : option SockAddr)
| on_message_fn (thread_id : nat) (msg : ptr).

(** The kernel is any function of the history and the call. *)
Definition kernel := list event → syscall → reply.

(** ** The SPSC queue of a mailbox cell

    [reactor.cpp] uses three operations of the queue class of
    [sphinx/spsc.h]: [try_to_emplace], [front] and [pop]. *)

(** Modelled from the spec: the class [sphinx::spsc::Queue<void*, N>] is
    missing.  "Each cell is a fixed-capacity ring of pointer-sized slots
    with head/tail indices maintained by a single producer and single
    consumer respectively.  Enqueue is wait-free on success and returns
    false when full without spinning.  Dequeue reads front
    non-destructively (peek) and advances on consume."  The producer owns
    [_head], the consumer owns [_tail]; both count up and a slot is found
    modulo the capacity. *)
Record Queue := mkQueue {
  slots : list ptr;
  _head : nat;
  _tail : nat
}.

Section Fabric.

(** The compile-time constants of [sphinx/reactor.h], which is missing
    too: [Reactor::max_nr_threads] and [Reactor::_msg_queue_size]. *)
Variable max_nr_threads : nat.
Variable _msg_queue_size : nat.

Definition qsize (q : Queue) : nat := (_head q - _tail q)%nat.

Definition queue_init : Queue :=
  mkQueue (replicate _msg_queue_size 0) 0 0.

(** Modelled from the spec: [Queue::try_to_emplace], "returns false when
    full", otherwise writes the slot at [_head] and publishes it. *)
Definition try_to_emplace (m : ptr) (q : Queue) : bool * Queue :=
  if decide (_msg_queue_size ≤ qsize q)%nat
  then (false, q)
  else (true, mkQueue (<[(_head q mod _msg_queue_size)%nat := m]> (slots q))
                      (S (_head q)) (_tail q)).

(** Modelled from the spec: [Queue::front], the peek; a null pointer
    (here [None]) when the ring is empty, else the address of the slot at
    [_tail], which the caller dereferences. *)
Definition front (q : Queue) : option ptr :=
  match qsize q with
  | O => None
  | S _ => slots q !! (_tail q mod _msg_queue_size)%nat
  end.

(** Modelled from the spec: [Queue::pop], "advances on consume". *)
Definition pop (q : Queue) : Queue :=
  mkQueue (slots q) (_head q) (S (_tail q)).

(** The messages a ring holds, oldest first: the abstract view of a cell. *)
Definition contents (q : Queue) : list ptr :=
  (λ i, default 0 (slots q !! (i mod _msg_queue_size)%nat))
    <$> seq (_tail q) (qsize q).

Definition queue_ok (q : Queue) : Prop :=
  length (slots q) = _msg_queue_size ∧ (_tail q ≤ _head q)%nat
  ∧ (qsize q ≤ _msg_queue_size)%nat.

Definition queue_full (q : Queue) : Prop := (_msg_queue_size ≤ qsize q)%nat.

(** ** The process-wide state

    The three static tables of [Reactor], and the log of events. *)
Record World := mkWorld {
  _pthread_ids : list pthread_t;
  _thread_is_sleeping : list bool;
  _msg_queues : list (list Queue);
  events : list event
}.

Definition world_ok (w : World) : Prop :=
  length (_pthread_ids w) = max_nr_threads
  ∧ length (_thread_is_sleeping w) = max_nr_threads
  ∧ length (_msg_queues w) = max_nr_threads
  ∧ Forall (λ row, length row = max_nr_threads ∧ Forall queue_ok row)
           (_msg_queues w).

Definition world_init : World :=
  mkWorld (replicate max_nr_threads 0)
          (replicate max_nr_threads false)
          (replicate max_nr_threads (replicate max_nr_threads queue_init))
          [].

(** ** The monad of the embedding *)

Definition M (A : Type) : Type := World → result A * World.

Definition m_pure {A} (a : A) : M A := λ w, (Returned a, w).

Definition m_bind {A B} (m : M A) (k : A → M B) : M B :=
  λ w, match m w with
       | (Returned a, w') => k a w'
       | (Thrown e, w') => (Thrown e, w')
       | (Undefined u, w') => (Undefined u, w')
       end.

Definition throw {A} (e : exn) : M A := λ w, (Thrown e, w).
Definition undefined {A} (u : ub) : M A := λ w, (Undefined u, w).

Definition log (e : event) : M unit :=
  λ w, (Returned (),
        mkWorld (_pthread_ids w) (_thread_is_sleeping w) (_msg_queues w)
                (events w ++ [e])).

End Fabric.

Notation "x <- m ;; k" := (m_bind m (λ x, k))
  (at level 100, m at next level, right associativity,
   format "'[v' x  <-  m  ;;  '/' k ']'").
Notation "m ;;; k" := (m_bind m (λ _, k))
  (at level 100, right associativity, format "'[v' m  ;;;  '/' k ']'").

(** ** Socket handles *)

Section Sockets.

(** The kernel the process runs on, and libc's [gai_strerror]. *)
Variable os : kernel.
Variable gai_strerror : Z → string.

(** Performing a system call: ask the kernel, record call and answer. *)
Definition sys (c : syscall) : M reply :=
  λ w, let r := os (events w) c in
       (Returned r,
        mkWorld (_pthread_ids w) (_thread_is_sleeping w) (_msg_queues w)
                (events w ++ [Sys c r])).

(** [std::string_view{data, n}]: the first [n] chars at [data]. *)
Definition string_view (data : nat → Z) (n : Z) : list Z :=
  data <$> seq 0 (Z.to_nat n).


Record TcpListener := mkTcpListener { listener_sockfd : Z }.

(** [TcpListener::accept], which is all [TcpListener::on_read_event] does. *)
Definition TcpListener_accept (l : TcpListener) : M unit :=
  r <- sys (sys_accept4 (listener_sockfd l) SOCK_NONBLOCK) ;;
  let connfd := ret r in
  if connfd <? 0 then throw (system_error (errno r) "accept4")
  else log (accept_fn connfd).

Definition TcpListener_on_read_event (l : TcpListener) : M unit :=
  TcpListener_accept l.

(** What both [send] methods do with the result [nr] of the system call. *)
Definition send_epilogue (r : reply) (len : Z) : M unit :=
  let nr := ret r in
  if (nr <? 0) && ((errno r =? ECONNRESET) || (errno r =? EPIPE)) then m_pure ()
  else if nr <? 0 then throw (system_error (errno r) "send")
  else if negb (size_t_of nr =? len) then throw (runtime_error "partial send")
  else m_pure ().

(** [TcpSocket::send]; [dst] is unused. *)
Definition TcpSocket_send (_sockfd : Z) (msg : list Z) (len : Z)
    (dst : option SockAddr) : M unit :=
  r <- sys (sys_send _sockfd msg len (Z.lor MSG_NOSIGNAL MSG_DONTWAIT)) ;;
  send_epilogue r len.


(** [UdpSocket::send]: [dst->addr] and [dst->len] are evaluated for the
    call, whatever [dst] holds. *)
Definition UdpSocket_send (_sockfd : Z) (msg : list Z) (len : Z)
    (dst : option SockAddr) : M unit :=
  match dst with
  | None => undefined empty_optional_access
  | Some (mkSockAddr dst_addr dst_len) =>
      r <- sys (sys_sendto _sockfd msg len (Z.lor MSG_NOSIGNAL MSG_DONTWAIT)
                           dst_addr dst_len) ;;
      send_epilogue r len
  end.


(** [Socket::~Socket], the destructor [TcpSocket] and [UdpSocket]
    inherit: the descriptor is closed, the result of [close] is dropped. *)
Definition Socket_dtor (_sockfd : Z) : M unit :=
  sys (sys_close _sockfd) ;;; m_pure ().

(** [TcpListener::~TcpListener]. *)
Definition TcpListener_dtor (l : TcpListener) : M unit :=
  sys (sys_close (listener_sockfd l)) ;;; m_pure ().


(** [lookup_addresses]; the port travels as a number, [std::to_string]
    is left to the call. *)
Definition lookup_addresses (iface : string) (port : Z) (sock_type : Z)
    : M (list addrinfo) :=
  r <- sys (lib_getaddrinfo iface port AF_INET sock_type 0
                            (Z.lor AI_PASSIVE AI_ADDRCONFIG)) ;;
  let err := ret r in
  if negb (err =? 0)
  then throw (runtime_error ("'" +:+ iface +:+ "': " +:+ gai_strerror err))
  else m_pure (res r).

(** The [for] loop of [make_tcp_listener] over the list at [rp]. *)
Fixpoint make_tcp_listener_loop (iface : string) (backlog : Z)
    (rp : list addrinfo) : M TcpListener :=
  match rp with
  | [] =>
      sys lib_freeaddrinfo ;;;
      throw (runtime_error ("Failed to listen to interface: '" +:+ iface +:+ "'"))
  | a :: ai_next =>
      s <- sys (sys_socket (ai_family a) (ai_socktype a) (ai_protocol a)) ;;
      let sockfd := ret s in
      if sockfd <? 0 then make_tcp_listener_loop iface backlog ai_next
      else
        sys (sys_setsockopt sockfd SOL_SOCKET
                            (Z.lor SO_REUSEADDR SO_REUSEPORT) 1) ;;;
        b <- sys (sys_bind sockfd (ai_addr a) (ai_addrlen a)) ;;
        if ret b <? 0
        then (sys (sys_close sockfd) ;;;
              make_tcp_listener_loop iface backlog ai_next)
        else
          l <- sys (sys_listen sockfd backlog) ;;
          if ret l <? 0
          then (sys (sys_close sockfd) ;;;
                make_tcp_listener_loop iface backlog ai_next)
          else (sys lib_freeaddrinfo ;;; m_pure (mkTcpListener sockfd))
  end.

Definition make_tcp_listener (iface : string) (port : Z) (backlog : Z)
    : M TcpListener :=
  addresses <- lookup_addresses iface port SOCK_STREAM ;;
  make_tcp_listener_loop iface backlog addresses.

Record UdpSocket := mkUdpSocket { udp_sockfd : Z }.

(** The [for] loop of [make_udp_socket]. *)
Fixpoint make_udp_socket_loop (iface : string) (rp : list addrinfo)
    : M UdpSocket :=
  match rp with
  | [] =>
      sys lib_freeaddrinfo ;;;
      throw (runtime_error ("Failed to listen to interface: '" +:+ iface +:+ "'"))
  | a :: ai_next =>
      s <- sys (sys_socket (ai_family a) (Z.lor (ai_socktype a) SOCK_NONBLOCK)
                           (ai_protocol a)) ;;
      let sockfd := ret s in
      if sockfd <? 0 then make_udp_socket_loop iface ai_next
      else
        sys (sys_setsockopt sockfd SOL_SOCKET
                            (Z.lor SO_REUSEADDR SO_REUSEPORT) 1) ;;;
        b <- sys (sys_bind sockfd (ai_addr a) (ai_addrlen a)) ;;
        if ret b <? 0
        then (sys (sys_close sockfd) ;;; make_udp_socket_loop iface ai_next)
        else (sys lib_freeaddrinfo ;;; m_pure (mkUdpSocket sockfd))
  end.

Definition make_udp_socket (iface : string) (port : Z) : M UdpSocket :=
  addresses <- lookup_addresses iface port SOCK_DGRAM ;;
  make_udp_socket_loop iface addresses.

End Sockets.

(** ** The kernel's view of the descriptors

    Linux sets [O_NONBLOCK] on a new open file description exactly when
    [socket] is given [SOCK_NONBLOCK] in its type, or [accept4] in its
    flags; nothing in the file changes the flag afterwards.  Replaying
    the log gives, for each open descriptor, whether it is non-blocking. *)
Definition fd_step (t : gmap Z bool) (e : event) : gmap Z bool :=
  match e with
  | Sys (sys_socket _ type _) r =>
      if ret r <? 0 then t else <[ret r := Z.testbit type 11]> t
  | Sys (sys_accept4 _ flags) r =>
      if ret r <? 0 then t else <[ret r := Z.testbit flags 11]> t
  | Sys (sys_close fd) _ => delete fd t
  | _ => t
  end.

Definition fd_table (tr : list event) : gmap Z bool := foldl fd_step ∅ tr.

Definition nonblocking (w : World) (fd : Z) : Prop :=
  fd_table (events w) !! fd = Some true.

(** ** The reactor's messaging operations *)

Section ReactorOps.

Variable _msg_queue_size : nat.
Variable os : kernel.

(** The fields of a [Reactor] the messaging code reads; the callback
    [_on_message_fn] shows as the event [on_message_fn]. *)
Record Reactor := mkReactor { _thread_id : nat; _nr_threads : nat }.

(** *** Access to the static tables

    An index past the end of a static array is undefined behaviour. *)
Definition load_pthread_id (i : nat) : M pthread_t :=
  λ w, match _pthread_ids w !! i with
       | Some t => (Returned t, w)
       | None => (Undefined array_index_out_of_bounds, w)
       end.

Definition store_pthread_id (i : nat) (t : pthread_t) : M unit :=
  λ w, match _pthread_ids w !! i with
       | Some _ =>
           (Returned (),
            mkWorld (<[i := t]> (_pthread_ids w)) (_thread_is_sleeping w)
                    (_msg_queues w) (events w))
       | None => (Undefined array_index_out_of_bounds, w)
       end.

Definition load_sleeping (i : nat) : M bool :=
  λ w, match _thread_is_sleeping w !! i with
       | Some b => (Returned b, w)
       | None => (Undefined array_index_out_of_bounds, w)
       end.

Definition store_sleeping (i : nat) (b : bool) : M unit :=
  λ w, match _thread_is_sleeping w !! i with
       | Some _ =>
           (Returned (),
            mkWorld (_pthread_ids w) (<[i := b]> (_thread_is_sleeping w))
                    (_msg_queues w) (events w))
       | None => (Undefined array_index_out_of_bounds, w)
       end.

(** The cell [_msg_queues[i][j]] of a world, if there is one. *)
Definition cell (w : World) (i j : nat) : option Queue :=
  row ← _msg_queues w !! i; row !! j.

Definition set_cell (w : World) (i j : nat) (q : Queue) : World :=
  mkWorld (_pthread_ids w) (_thread_is_sleeping w)
          (alter (λ row, <[j := q]> row) i (_msg_queues w)) (events w).

(** [auto& queue = _msg_queues[i][j]]: a reference to a cell is the pair
    of its indices. *)
Definition queue_ref : Type := nat * nat.

Definition index_msg_queues (i j : nat) : M queue_ref :=
  λ w, match cell w i j with
       | Some _ => (Returned (i, j), w)
       | None => (Undefined array_index_out_of_bounds, w)
       end.

(** Running a queue operation [f] through a reference. *)
Definition on_queue {A} (queue : queue_ref) (f : Queue → A * Queue) : M A :=
  λ w, match cell w queue.1 queue.2 with
       | Some q =>
           let '(a, q') := f q in (Returned a, set_cell w queue.1 queue.2 q')
       | None => (Undefined array_index_out_of_bounds, w)
       end.

(** [Reactor::wake_up]. *)
Definition wake_up (thread_id : nat) : M unit :=
  t <- load_pthread_id thread_id ;;
  sys os (sys_pthread_kill t SIGUSR1) ;;;
  m_pure ().

(** [Reactor::Reactor]: the empty handler for SIGUSR1 is installed, the
    signal is blocked, the sleep flag is cleared and the thread identity
    published. *)
Definition Reactor_ctor (thread_id nr_threads : nat) : M Reactor :=
  a <- sys os (sys_sigaction SIGUSR1 (Z.lor SA_SIGINFO SA_RESTART)) ;;
  if ret a <? 0 then throw (system_error (errno a) "sigaction")
  else
    m <- sys os (sys_pthread_sigmask SIG_BLOCK SIGUSR1) ;;
    if ret m <? 0 then throw (system_error (errno m) "pthread_sigmask")
    else
      store_sleeping thread_id false ;;;
      self <- sys os sys_pthread_self ;;
      store_pthread_id thread_id (ret self) ;;;
      m_pure (mkReactor thread_id nr_threads).

(** [Reactor::send_msg]. *)
Definition send_msg (r : Reactor) (remote_id : nat) (msg : ptr) : M bool :=
  if decide (remote_id = _thread_id r)
  then throw (invalid_argument "Attempting to send message to self")
  else
    queue <- index_msg_queues remote_id (_thread_id r) ;;
    ok <- on_queue queue (try_to_emplace _msg_queue_size msg) ;;
    if negb ok then m_pure false
    else
      sleeping <- load_sleeping remote_id ;;
      (if sleeping
       then store_sleeping remote_id false ;;; wake_up remote_id
       else m_pure ()) ;;;
      m_pure true.

(** [queue.front()] through a reference leaves the ring as it is. *)
Definition peek (q : Queue) : option ptr * Queue :=
  (front _msg_queue_size q, q).

(** The [for] loop of [Reactor::has_messages] over the remaining values
    of [other]. *)
Fixpoint has_messages_loop (r : Reactor) (others : list nat) : M bool :=
  match others with
  | [] => m_pure false
  | other :: rest =>
      if decide (other = _thread_id r) then has_messages_loop r rest
      else
        queue <- index_msg_queues (_thread_id r) other ;;
        msg <- on_queue queue peek ;;
        match msg with
        | None => has_messages_loop r rest
        | Some _ => m_pure true
        end
  end.

(** [Reactor::has_messages]. *)
Definition has_messages (r : Reactor) : M bool :=
  has_messages_loop r (seq 0 (_nr_threads r)).

(** A value together with the equation that it is what was computed. *)
Definition inspect {A} (a : A) : {b | a = b} := exist _ a eq_refl.

(** The inner [for (;;)] of [Reactor::poll_messages] on one cell: the
    ring, the flag [has_messages] and the log as the loop leaves them. *)
Equations drain (thread_id : nat) (q : Queue) (has_messages : bool)
    (evs : list event) : Queue * bool * list event
    by wf (qsize q) lt :=
  drain thread_id q has_messages evs
    with inspect (front _msg_queue_size q) := {
    | exist _ None _ => (q, has_messages, evs)
    | exist _ (Some msg) _ =>
        drain thread_id (pop q) (has_messages || true)
              (evs ++ [on_message_fn thread_id msg]) }.
Next Obligation.
  unfold front, qsize, pop in *. simpl.
  destruct (_head q - _tail q)%nat eqn:E; [discriminate | lia].
Qed.

(** The inner loop through the reference [queue]: it works on that one
    cell and on the log, and the cell holds what the loop left of it. *)
Definition drain_queue (thread_id : nat) (queue : queue_ref)
    (has_messages : bool) : M bool :=
  λ w, match cell w queue.1 queue.2 with
       | Some q =>
           let '(q', has, evs) := drain thread_id q has_messages (events w) in
           (Returned has,
            mkWorld (_pthread_ids w) (_thread_is_sleeping w)
                    (alter (λ row, <[queue.2 := q']> row) queue.1
                           (_msg_queues w))
                    evs)
       | None => (Undefined array_index_out_of_bounds, w)
       end.

(** The outer [for] loop of [Reactor::poll_messages]. *)
Fixpoint poll_messages_loop (r : Reactor) (others : list nat)
    (has_messages : bool) : M bool :=
  match others with
  | [] => m_pure has_messages
  | other :: rest =>
      if decide (other = _thread_id r)
      then poll_messages_loop r rest has_messages
      else
        queue <- index_msg_queues (_thread_id r) other ;;
        has_messages <- drain_queue (_thread_id r) queue has_messages ;;
        poll_messages_loop r rest has_messages
  end.

(** [Reactor::poll_messages]. *)
Definition poll_messages (r : Reactor) : M bool :=
  poll_messages_loop r (seq 0 (_nr_threads r)) false.

(** [Reactor::default_backend]. *)
Definition default_backend : string := "epoll".

(** [make_reactor] hands out a [Reactor] whose dynamic type is the
    back end's class. *)
Inductive reactor_object :=
| EpollReactor (base : Reactor).

(** The constructor of [EpollReactor] lives in [reactor-epoll.cpp], which
    is missing: after the base class constructor it runs the back end's
    own set-up, taken here as given. *)
Variable EpollReactor_setup : Reactor → M unit.

Definition EpollReactor_ctor (thread_id nr_threads : nat) : M reactor_object :=
  base <- Reactor_ctor thread_id nr_threads ;;
  EpollReactor_setup base ;;;
  m_pure (EpollReactor base).

(** [make_reactor]. *)
Definition make_reactor (backend : string) (thread_id nr_threads : nat)
    : M reactor_object :=
  if String.eqb backend "epoll"
  then EpollReactor_ctor thread_id nr_threads
  else throw (invalid_argument ("unrecognized '" +:+ backend +:+ "' backend")).

End ReactorOps.

(** * Properties *)

(** ** Vocabulary of the statements *)

(** The world after [evs] more events. *)
Definition add_events (w : World) (evs : list event) : World :=
  mkWorld (_pthread_ids w) (_thread_is_sleeping w) (_msg_queues w)
          (events w ++ evs).

(** A kernel for the examples: every call answers [rv], with [errno] set
    to [e], an all-zero buffer and no addresses. *)
Definition answering (rv e : Z) : kernel :=
  λ _ _, mkReply rv e (λ _, 0) [] 0 [].

(** The error policy of [send], case by case, for the kernel's answer
    [r] to a request of [n] bytes and the outcome [out] of the method. *)
Definition send_policy (r : reply) (n : Z) (out : result unit) : Prop :=
  (ret r < 0 ∧ (errno r = ECONNRESET ∨ errno r = EPIPE) → out = Returned ())
  ∧ (ret r < 0 ∧ errno r ≠ ECONNRESET ∧ errno r ≠ EPIPE →
     out = Thrown (system_error (errno r) "send"))
  ∧ (0 ≤ ret r < n → out = Thrown (runtime_error "partial send"))
  ∧ (0 ≤ ret r → (out = Returned () ↔ ret r = n)).

(** [m], [n] times in a row. *)
Fixpoint repeatedly {A} (n : nat) (m : M A) : M unit :=
  match n with
  | O => m_pure ()
  | S n' => m ;;; repeatedly n' m
  end.

(** The peers a reactor scans, in scan order. *)
Definition peers (r : Reactor) : list nat :=
  filter (λ other, other ≠ _thread_id r) (seq 0 (_nr_threads r)).

(** What waits for a reactor in the cells of [others], in that order. *)
Definition waiting (K : nat) (w : World) (thread_id : nat)
    (others : list nat) : list ptr :=
  others ≫= λ other, default [] (contents K <$> cell w thread_id other).

(** The mailbox of a reactor: what waits in its column, in scan order. *)
Definition pending (K : nat) (w : World) (r : Reactor) : list ptr :=
  waiting K w (_thread_id r) (peers r).

(** A producer sending [msgs] one after the other; the result lists the
    messages that [send_msg] accepted. *)
Fixpoint send_each (K : nat) (os : kernel) (r : Reactor) (remote_id : nat)
    (msgs : list ptr) : M (list ptr) :=
  match msgs with
  | [] => m_pure []
  | msg :: rest =>
      ok <- send_msg K os r remote_id msg ;;
      accepted <- send_each K os r remote_id rest ;;
      m_pure (if ok then msg :: accepted else accepted)
  end.


(** A fabric of three threads with cells of two slots, after thread 0
    has sent the messages 77 and 78 to thread 1. *)
Definition two_sent : World :=
  (send_each 2 (answering 0 0) (mkReactor 0 3) 1 [77; 78] (world_init 3 2)).2.

(** Well-formedness of a given world, by evaluation. *)
Ltac world_ok_by_evaluation := vm_compute; repeat constructor.



(** A kernel on which [make_tcp_listener] succeeds at once: name
    resolution yields one stream endpoint, [socket] hands out descriptor
    3, and every other call returns 0. *)
Definition loopback : addrinfo := mkAddrinfo AF_INET SOCK_STREAM 6 [127; 0; 0; 1] 16.

Definition friendly : kernel :=
  λ _ c, match c with
         | lib_getaddrinfo _ _ _ _ _ _ => mkReply 0 0 (λ _, 0) [] 0 [loopback]
         | sys_socket _ _ _ => mkReply 3 0 (λ _, 0) [] 0 []
         | _ => mkReply 0 0 (λ _, 0) [] 0 []
         end.

(** The descriptors a stretch of the log opens with [socket], those it
    closes, how often it frees an address list, and the signals it sends,
    each in the order of the log. *)
Definition opened (evs : list event) : list Z :=
  evs ≫= λ e, match e with
              | Sys (sys_socket _ _ _) r => if ret r <? 0 then [] else [ret r]
              | _ => []
              end.

Definition closed (evs : list event) : list Z :=
  evs ≫= λ e, match e with
              | Sys (sys_close fd) _ => [fd]
              | _ => []
              end.

Definition freed (evs : list event) : nat :=
  length (evs ≫= λ e, match e with
                      | Sys lib_freeaddrinfo _ => [()]
                      | _ => []
                      end).

Definition signals (evs : list event) : list (pthread_t * Z) :=
  evs ≫= λ e, match e with
              | Sys (sys_pthread_kill t sig) _ => [(t, sig)]
              | _ => []
              end.

(** The address look-up both factories start with. *)
Definition getaddrinfo_call (iface : string) (port : Z) (sock_type : Z)
    : syscall :=
  lib_getaddrinfo iface port AF_INET sock_type 0
                  (Z.lor AI_PASSIVE AI_ADDRCONFIG).

(** What a run of a factory loop does with descriptors: every descriptor
    it opened it has closed again, except the one it returns; and it
    frees the address list once. *)
Definition balanced {A} (fd_of : A → Z) (out : result A * World)
    (w : World) (iface : string) : Prop :=
  ∃ new : list event,
    out.2 = add_events w new
    ∧ freed new = 1%nat
    ∧ match out.1 with
      | Returned h => opened new = closed new ++ [fd_of h]
      | Thrown e =>
          opened new = closed new
          ∧ e = runtime_error
                  ("Failed to listen to interface: '" +:+ iface +:+ "'")
      | Undefined _ => False
      end.


(** A fabric of three threads with identities 40, 41 and 42, all cells
    empty, thread 1 asleep. *)
Definition asleep : World :=
  mkWorld [40; 41; 42] [false; true; false] (_msg_queues (world_init 3 2)) [].

(** The kernel's answers to the three calls of [Reactor::Reactor], each
    asked after the calls before it, and the world the constructor leaves
    for thread [thread_id] when the first two succeed. *)
Definition sigaction_reply (os : kernel) (w : World) : reply :=
  os (events w) (sys_sigaction SIGUSR1 (Z.lor SA_SIGINFO SA_RESTART)).

Definition sigmask_reply (os : kernel) (w : World) : reply :=
  os (events w ++
      [Sys (sys_sigaction SIGUSR1 (Z.lor SA_SIGINFO SA_RESTART))
           (sigaction_reply os w)])
     (sys_pthread_sigmask SIG_BLOCK SIGUSR1).

Definition self_reply (os : kernel) (w : World) : reply :=
  os (events w ++
      [Sys (sys_sigaction SIGUSR1 (Z.lor SA_SIGINFO SA_RESTART))
           (sigaction_reply os w);
       Sys (sys_pthread_sigmask SIG_BLOCK SIGUSR1) (sigmask_reply os w)])
     sys_pthread_self.

Definition constructed (os : kernel) (thread_id : nat) (w : World) : World :=
  mkWorld (<[thread_id := ret (self_reply os w)]> (_pthread_ids w))
          (<[thread_id := false]> (_thread_is_sleeping w))
          (_msg_queues w)
          (events w ++
           [Sys (sys_sigaction SIGUSR1 (Z.lor SA_SIGINFO SA_RESTART))
                (sigaction_reply os w);
            Sys (sys_pthread_sigmask SIG_BLOCK SIGUSR1) (sigmask_reply os w);
            Sys sys_pthread_self (self_reply os w)]).

(** Case analysis on the comparisons the methods make. *)
Ltac case_tests :=
  repeat match goal with
  | |- context [ ?a <? ?b ] => destruct (Z.ltb_spec a b)
  | |- context [ ?a =? ?b ] => destruct (Z.eqb_spec a b)
  end; simpl.

Section SocketProperties.

Variable os : kernel.

Lemma size_t_of_ssize_t (nr : Z) : 0 ≤ nr < 2 ^ 63 → size_t_of nr = nr.
Proof. intros H. unfold size_t_of. apply Z.mod_small. lia. Qed.

Lemma send_epilogue_policy (r : reply) (n : Z) (w : World) :
  0 ≤ n < 2 ^ 64 → - 2 ^ 63 ≤ ret r < 2 ^ 63 →
  send_policy r n (send_epilogue r n w).1 ∧ (send_epilogue r n w).2 = w.
Proof.
  intros Hn Hr. unfold send_policy, send_epilogue.
  destruct (Z.ltb_spec (ret r) 0) as [Hneg | Hpos]; simpl.
  - destruct (Z.eqb_spec (errno r) ECONNRESET) as [He | He]; simpl;
      [| destruct (Z.eqb_spec (errno r) EPIPE) as [Hp | Hp]; simpl ];
      repeat split; intros; try reflexivity; try lia; intuition congruence.
  - rewrite (size_t_of_ssize_t (ret r)) by lia.
    destruct (Z.eqb_spec (ret r) n) as [Heq | Hne]; simpl;
      repeat split; intros; try reflexivity; try lia; try congruence.
Qed.

(** C6. [TcpSocket::send], and in the same way [UdpSocket::send] with a
    destination, returns normally when the system call fails with
    ECONNRESET or EPIPE, throws the system error "send" for any other
    negative result, throws "partial send" when fewer bytes than asked
    were written, and for a non-negative result returns normally exactly
    when all [n] bytes were written. *)
Theorem send_error_policy (fd : Z) (msg : list Z) (n : Z)
    (dst : option SockAddr) (d : SockAddr) (w : World)
    (tcp udp : reply) :
  tcp = os (events w) (sys_send fd msg n (Z.lor MSG_NOSIGNAL MSG_DONTWAIT)) →
  udp = os (events w) (sys_sendto fd msg n (Z.lor MSG_NOSIGNAL MSG_DONTWAIT)
                                  (addr d) (len d)) →
  0 ≤ n < 2 ^ 64 →
  - 2 ^ 63 ≤ ret tcp < 2 ^ 63 →
  - 2 ^ 63 ≤ ret udp < 2 ^ 63 →
  send_policy tcp n (TcpSocket_send os fd msg n dst w).1
  ∧ send_policy udp n (UdpSocket_send os fd msg n (Some d) w).1.
Proof.
  intros -> -> Hn Htcp Hudp. split.
  - unfold TcpSocket_send, m_bind, sys.
    apply send_epilogue_policy; assumption.
  - destruct d as [a l]. unfold UdpSocket_send, m_bind, sys.
    apply send_epilogue_policy; assumption.
Qed.

Lemma add_events_app (w : World) (e1 e2 : list event) :
  add_events (add_events w e1) e2 = add_events w (e1 ++ e2).
Proof. unfold add_events. simpl. by rewrite <- app_assoc. Qed.


Lemma string_view_0 (data : nat → Z) : string_view data 0 = [].
Proof. reflexivity. Qed.


(** C9. [UdpSocket::send] reads its destination without a test: given an
    address, the one [sendto] it makes carries exactly that address and
    length, and the outcome is a defined one; given an empty optional, it
    reaches the access to the empty optional before any system call. *)
Theorem udp_send_destination (fd : Z) (msg : list Z) (n : Z) (w : World) :
  (∀ d : SockAddr,
     events (UdpSocket_send os fd msg n (Some d) w).2
     = events w ++
       [Sys (sys_sendto fd msg n (Z.lor MSG_NOSIGNAL MSG_DONTWAIT)
                        (addr d) (len d))
            (os (events w)
                (sys_sendto fd msg n (Z.lor MSG_NOSIGNAL MSG_DONTWAIT)
                            (addr d) (len d)))]
     ∧ ∀ u, (UdpSocket_send os fd msg n (Some d) w).1 ≠ Undefined u)
  ∧ UdpSocket_send os fd msg n None w = (Undefined empty_optional_access, w).
Proof.
  split; [| reflexivity].
  intros [a l]. unfold UdpSocket_send, m_bind, sys, send_epilogue. simpl.
  case_tests; split; try reflexivity; intros u; discriminate.
Qed.

End SocketProperties.

Lemma send_error_policy_witness :
  send_policy (answering (-1) EPIPE [] (sys_send 5 [104; 105] 2 16448)) 2
    (TcpSocket_send (answering (-1) EPIPE) 5 [104; 105] 2 None
                    (world_init 2 2)).1
  ∧ send_policy
      (answering (-1) EPIPE []
                 (sys_sendto 5 [104; 105] 2 16448 [127; 0; 0; 1] 16)) 2
      (UdpSocket_send (answering (-1) EPIPE) 5 [104; 105] 2
                      (Some (mkSockAddr [127; 0; 0; 1] 16))
                      (world_init 2 2)).1.
Proof.
  apply (send_error_policy (answering (-1) EPIPE) 5 [104; 105] 2 None
           (mkSockAddr [127; 0; 0; 1] 16) (world_init 2 2));
    try reflexivity; simpl; lia.
Defined.


(** ** Descriptors and their blocking mode *)

Lemma fd_table_app (tr more : list event) :
  fd_table (tr ++ more) = foldl fd_step (fd_table tr) more.
Proof. unfold fd_table. by rewrite foldl_app. Qed.

Lemma SOCK_NONBLOCK_bit (type : Z) :
  Z.testbit (Z.lor type SOCK_NONBLOCK) 11 = true.
Proof. rewrite Z.lor_spec. apply orb_true_r. Qed.

Section DescriptorProperties.

Variable os : kernel.
Variable gai_strerror : Z → string.

(** A socket made by [make_udp_socket] is non-blocking from the call that
    made it. *)
Lemma make_udp_socket_loop_nonblocking (iface : string) (rp : list addrinfo) :
  ∀ (w w' : World) (s : UdpSocket),
    make_udp_socket_loop os iface rp w = (Returned s, w') →
    nonblocking w' (udp_sockfd s).
Proof.
  induction rp as [| a rest IH]; intros w w' s.
  - discriminate.
  - simpl. unfold m_bind at 1. unfold sys at 1.
    set (r1 := os (events w) _).
    destruct (Z.ltb_spec (ret r1) 0) as [Hneg | Hpos].
    { apply IH. }
    unfold m_bind at 1. unfold sys at 1. simpl.
    unfold m_bind at 1. unfold sys at 1. simpl.
    match goal with |- context [ret ?r <? 0] => set (r3 := r) end.
    destruct (Z.ltb_spec (ret r3) 0) as [Hbind | Hbind].
    { unfold m_bind at 1. unfold sys at 1. simpl. apply IH. }
    unfold m_bind, sys, m_pure. simpl.
    intros [= <- <-]. unfold nonblocking. simpl.
    rewrite <- !app_assoc, fd_table_app. simpl.
    destruct (Z.ltb_spec (ret r1) 0); [lia |].
    rewrite lookup_insert_eq. exact (f_equal Some (SOCK_NONBLOCK_bit _)).
Qed.

Lemma make_udp_socket_nonblocking (iface : string) (port : Z)
    (w w' : World) (s : UdpSocket) :
  make_udp_socket os gai_strerror iface port w = (Returned s, w') →
  nonblocking w' (udp_sockfd s).
Proof.
  unfold make_udp_socket, lookup_addresses.
  unfold m_bind at 1. unfold m_bind at 1. unfold sys at 1. simpl.
  destruct (Z.eqb_spec (ret (os (events w)
    (lib_getaddrinfo iface port AF_INET SOCK_DGRAM 0
       (Z.lor AI_PASSIVE AI_ADDRCONFIG)))) 0); simpl.
  - apply make_udp_socket_loop_nonblocking.
  - discriminate.
Qed.

(** A connection handed to the accept callback is non-blocking. *)
Lemma accept_nonblocking (l : TcpListener) (w w' : World) :
  TcpListener_on_read_event os l w = (Returned (), w') →
  ∃ connfd : Z,
    events w'
    = events w ++
      [Sys (sys_accept4 (listener_sockfd l) SOCK_NONBLOCK)
           (os (events w) (sys_accept4 (listener_sockfd l) SOCK_NONBLOCK));
       accept_fn connfd]
    ∧ nonblocking w' connfd.
Proof.
  unfold TcpListener_on_read_event, TcpListener_accept, m_bind, sys. simpl.
  set (r := os (events w) _).
  destruct (Z.ltb_spec (ret r) 0) as [Hneg | Hpos]; [discriminate |].
  unfold log. simpl. intros [= <-]. exists (ret r). simpl.
  rewrite <- app_assoc. split; [reflexivity |].
  unfold nonblocking. simpl. rewrite fd_table_app. simpl.
  destruct (Z.ltb_spec (ret r) 0); [lia |].
  by rewrite lookup_insert_eq.
Qed.

(** The listening socket of [make_tcp_listener] keeps the mode its
    address candidate asks for: with plain stream candidates, as the
    look-up requests them, it is a blocking one. *)
Lemma make_tcp_listener_loop_mode (iface : string) (backlog : Z)
    (rp : list addrinfo) :
  Forall (λ a, Z.testbit (ai_socktype a) 11 = false) rp →
  ∀ (w w' : World) (l : TcpListener),
    make_tcp_listener_loop os iface backlog rp w = (Returned l, w') →
    fd_table (events w') !! listener_sockfd l = Some false.
Proof.
  induction rp as [| a rest IH]; intros Hall w w' l.
  - discriminate.
  - apply Forall_cons in Hall as [Ha Hrest].
    simpl. unfold m_bind at 1. unfold sys at 1.
    set (r1 := os (events w) _).
    destruct (Z.ltb_spec (ret r1) 0) as [Hneg | Hpos].
    { by apply IH. }
    unfold m_bind at 1. unfold sys at 1. simpl.
    unfold m_bind at 1. unfold sys at 1. simpl.
    match goal with |- context [ret ?r <? 0] => set (r3 := r) end.
    destruct (Z.ltb_spec (ret r3) 0) as [Hbind | Hbind].
    { unfold m_bind at 1. unfold sys at 1. simpl. by apply IH. }
    unfold m_bind at 1. unfold sys at 1. simpl.
    match goal with |- context [ret ?r <? 0] => set (r4 := r) end.
    destruct (Z.ltb_spec (ret r4) 0) as [Hlisten | Hlisten].
    { unfold m_bind at 1. unfold sys at 1. simpl. by apply IH. }
    unfold m_bind, sys, m_pure. simpl.
    intros [= <- <-]. simpl.
    rewrite <- !app_assoc, fd_table_app. simpl.
    destruct (Z.ltb_spec (ret r1) 0); [lia |].
    rewrite lookup_insert_eq. exact (f_equal Some Ha).
Qed.

End DescriptorProperties.

(** C7. The listening descriptor that [make_tcp_listener] returns is made
    by [socket] with the plain stream type: on a kernel where every call
    succeeds the listener comes back holding descriptor 3, and that
    descriptor is open in blocking mode. *)
Theorem make_tcp_listener_blocking :
  ∃ w' : World,
    make_tcp_listener friendly (λ _, "") "127.0.0.1" 11211 128 (world_init 2 2)
    = (Returned (mkTcpListener 3), w')
    ∧ Sys (sys_socket AF_INET SOCK_STREAM 6)
          (friendly [] (sys_socket AF_INET SOCK_STREAM 6)) ∈ events w'
    ∧ fd_table (events w') !! 3 = Some false
    ∧ ¬ nonblocking w' 3.
Proof.
  eexists. split; [vm_compute; reflexivity |].
  split; [| split].
  - apply list_elem_of_lookup. exists 1%nat. reflexivity.
  - vm_compute. reflexivity.
  - unfold nonblocking. vm_compute. discriminate.
Qed.

(** ** The ring as a FIFO *)

Section QueueProperties.

Variable K : nat.

(** Two counters less than a capacity apart never share a slot. *)
Lemma slot_distinct (i h : nat) :
  (i < h)%nat → (h - i < K)%nat → (i mod K ≠ h mod K)%nat.
Proof.
  intros Hlt Hclose Heq.
  pose proof (Nat.div_mod_eq i K) as Hi.
  pose proof (Nat.div_mod_eq h K) as Hh.
  rewrite Heq in Hi.
  assert (Hd : (h - i = K * (h / K) - K * (i / K))%nat) by lia.
  assert (Hq : (i / K < h / K)%nat) by nia.
  nia.
Qed.

Lemma queue_init_ok : queue_ok K (queue_init K).
Proof. unfold queue_ok, queue_init, qsize. simpl. rewrite length_replicate. lia. Qed.

Lemma contents_init : contents K (queue_init K) = [].
Proof. reflexivity. Qed.

Lemma contents_length (q : Queue) : length (contents K q) = qsize q.
Proof. unfold contents. by rewrite length_fmap, length_seq. Qed.

Lemma contents_nil (q : Queue) : contents K q = [] ↔ qsize q = 0%nat.
Proof. rewrite <- contents_length. symmetry. apply length_zero_iff_nil. Qed.

(** A full ring refuses and stays as it is. *)
Lemma try_to_emplace_full (m : ptr) (q : Queue) :
  queue_full K q → try_to_emplace K m q = (false, q).
Proof. unfold queue_full, try_to_emplace. intros H. by rewrite decide_True. Qed.

(** Otherwise the message goes to the back. *)
Lemma try_to_emplace_room (m : ptr) (q : Queue) :
  queue_ok K q → ¬ queue_full K q →
  ∃ q', try_to_emplace K m q = (true, q')
        ∧ contents K q' = contents K q ++ [m]
        ∧ queue_ok K q'.
Proof.
  unfold queue_full, try_to_emplace, queue_ok, qsize.
  intros (Hlen & Hle & Hsz) Hroom. rewrite decide_False by assumption.
  eexists. split; [reflexivity |].
  assert (HK : (0 < K)%nat) by lia.
  split.
  - unfold contents, qsize. simpl.
    replace (S (_head q) - _tail q)%nat with (S (_head q - _tail q)) by lia.
    rewrite seq_S, fmap_app. simpl.
    replace (_tail q + (_head q - _tail q))%nat with (_head q) by lia.
    f_equal.
    + apply list_fmap_ext. intros j i Hi.
      apply lookup_seq in Hi as [-> Hj]. f_equal.
      apply list_lookup_insert_ne. apply not_eq_sym, slot_distinct; lia.
    + rewrite list_lookup_insert_eq; [reflexivity |].
      rewrite Hlen. apply Nat.mod_upper_bound. lia.
  - simpl. rewrite length_insert. lia.
Qed.

(** The front of a ring is the head of its contents. *)
Lemma front_contents (q : Queue) :
  queue_ok K q → front K q = head (contents K q).
Proof.
  unfold front, contents, queue_ok, qsize. intros (Hlen & Hle & Hsz).
  destruct (_head q - _tail q)%nat as [| n] eqn:E; [reflexivity |].
  simpl.
  destruct (lookup_lt_is_Some_2 (slots q) (_tail q mod K)%nat) as [x Hx].
  { rewrite Hlen. apply Nat.mod_upper_bound. lia. }
  by rewrite Hx.
Qed.

Lemma front_None (q : Queue) :
  queue_ok K q → (front K q = None ↔ contents K q = []).
Proof.
  intros Hok. rewrite front_contents by assumption.
  destruct (contents K q); simpl; split; congruence.
Qed.

(** Consuming drops exactly the front. *)
Lemma pop_contents (q : Queue) (m : ptr) :
  queue_ok K q → front K q = Some m →
  contents K q = m :: contents K (pop q) ∧ queue_ok K (pop q).
Proof.
  intros Hok Hfront. pose proof Hok as (Hlen & Hle & Hsz).
  rewrite front_contents in Hfront by assumption.
  unfold contents, pop, queue_ok, qsize in *. simpl in *.
  destruct (_head q - _tail q)%nat as [| n] eqn:E; [discriminate |].
  replace (_head q - S (_tail q))%nat with n by lia.
  simpl in *. injection Hfront as <-.
  split; [reflexivity | lia].
Qed.

(** The inner loop of [poll_messages] hands every message of the ring to
    the callback, oldest first, and leaves the ring empty. *)
Lemma drain_spec (thread_id : nat) (q : Queue) (has : bool)
    (evs : list event) :
  queue_ok K q →
  ∃ q', drain K thread_id q has evs
        = (q', has || bool_decide (contents K q ≠ []),
           evs ++ (on_message_fn thread_id <$> contents K q))
        ∧ contents K q' = [] ∧ queue_ok K q'.
Proof.
  funelim (drain K thread_id q has evs); intros Hok.
  - match goal with
    | e : front K ?q = Some ?m, IH : queue_ok K (pop ?q) → _ |- _ =>
        destruct (pop_contents q m Hok e) as [Hc Hok'];
        destruct (IH Hok') as (q' & Hrun & Hempty & Hq')
    end.
    exists q'. rewrite Hrun, Hc.
    rewrite (bool_decide_eq_true_2 (_ :: _ ≠ [])) by discriminate.
    rewrite fmap_cons, <- app_assoc, !orb_true_r. auto.
  - match goal with
    | e : front K ?q = None |- _ =>
        pose proof (proj1 (front_None q Hok) e) as Hnil
    end.
    exists q. rewrite Hnil.
    rewrite (bool_decide_eq_false_2 ([] ≠ [])) by congruence.
    simpl. rewrite orb_false_r, app_nil_r. auto.
Qed.

End QueueProperties.

(** ** The mailbox fabric *)

Section FabricProperties.

Variable max_nr_threads : nat.
Variable K : nat.
Variable os : kernel.

Implicit Types (w : World) (q : Queue) (r : Reactor) (i j : nat).

Lemma cell_set_cell_eq w i j q0 q :
  cell w i j = Some q0 → cell (set_cell w i j q) i j = Some q.
Proof.
  unfold cell, set_cell. simpl. intros H.
  rewrite list_lookup_alter_eq.
  destruct (_msg_queues w !! i) as [row |]; simpl in *; [| discriminate].
  apply list_lookup_insert_eq. by eapply lookup_lt_Some.
Qed.

Lemma cell_set_cell_ne w i j i' j' q :
  (i', j') ≠ (i, j) → cell (set_cell w i j q) i' j' = cell w i' j'.
Proof.
  unfold cell, set_cell. simpl. intros Hne.
  destruct (decide (i = i')) as [<- | Hi].
  - rewrite list_lookup_alter_eq.
    destruct (_msg_queues w !! i) as [row |]; simpl; [| reflexivity].
    apply list_lookup_insert_ne. congruence.
  - by rewrite list_lookup_alter_ne.
Qed.

Lemma set_cell_id w i j q : cell w i j = Some q → set_cell w i j q = w.
Proof.
  unfold cell, set_cell. destruct w as [ids sl qs evs]. simpl. intros H.
  f_equal. apply list_eq. intros k.
  destruct (decide (i = k)) as [<- | Hk].
  - rewrite list_lookup_alter_eq.
    destruct (qs !! i) as [row |]; simpl in *; [| reflexivity].
    f_equal. by apply list_insert_id.
  - by rewrite list_lookup_alter_ne.
Qed.

Lemma set_cell_ok w i j q :
  world_ok max_nr_threads K w → queue_ok K q →
  world_ok max_nr_threads K (set_cell w i j q).
Proof.
  unfold world_ok, set_cell. simpl. intros (H1 & H2 & H3 & H4) Hq.
  rewrite length_alter. repeat split; try assumption.
  apply Forall_alter; [assumption |].
  intros row Hrow.
  pose proof (proj1 (Forall_lookup _ _) H4 i row Hrow) as [Hl Hf].
  rewrite length_insert. split; [assumption |].
  by apply Forall_insert.
Qed.

(** In a well-formed world the cells are those with both indices below
    [max_nr_threads], and each holds a well-formed ring. *)
Lemma cell_is_Some w i j :
  world_ok max_nr_threads K w →
  (i < max_nr_threads)%nat → (j < max_nr_threads)%nat →
  ∃ q, cell w i j = Some q ∧ queue_ok K q.
Proof.
  intros (H1 & H2 & H3 & H4) Hi Hj. unfold cell.
  destruct (lookup_lt_is_Some_2 (_msg_queues w) i) as [row Hrow]; [lia |].
  pose proof (proj1 (Forall_lookup _ _) H4 i row Hrow) as [Hl Hf].
  destruct (lookup_lt_is_Some_2 row j) as [q Hq]; [lia |].
  exists q. rewrite Hrow. simpl. split; [assumption |].
  exact (proj1 (Forall_lookup _ _) Hf j q Hq).
Qed.

Lemma cell_Some_inv w i j q :
  world_ok max_nr_threads K w → cell w i j = Some q →
  (i < max_nr_threads)%nat ∧ (j < max_nr_threads)%nat ∧ queue_ok K q.
Proof.
  intros (H1 & H2 & H3 & H4). unfold cell.
  destruct (_msg_queues w !! i) as [row |] eqn:Hrow; simpl; [| discriminate].
  intros Hq.
  pose proof (proj1 (Forall_lookup _ _) H4 i row Hrow) as [Hl Hf].
  pose proof (lookup_lt_Some _ _ _ Hrow). pose proof (lookup_lt_Some _ _ _ Hq).
  split; [lia | split; [lia |]].
  exact (proj1 (Forall_lookup _ _) Hf j q Hq).
Qed.

Lemma cell_None w i j :
  world_ok max_nr_threads K w →
  (max_nr_threads ≤ i ∨ max_nr_threads ≤ j)%nat → cell w i j = None.
Proof.
  intros Hok Hout. destruct (cell w i j) as [q |] eqn:E; [| reflexivity].
  destruct (cell_Some_inv w i j q Hok E) as (? & ? & _). lia.
Qed.

Lemma world_init_ok : world_ok max_nr_threads K (world_init max_nr_threads K).
Proof.
  unfold world_ok, world_init. simpl. rewrite !length_replicate.
  repeat split. apply Forall_replicate. rewrite length_replicate.
  split; [reflexivity |]. apply Forall_replicate, queue_init_ok.
Qed.

(** How the steps of the monad run. *)
Lemma m_bind_run {A B} (m : M A) (k : A → M B) w (a : A) w1 :
  m w = (Returned a, w1) → m_bind m k w = k a w1.
Proof. unfold m_bind. by intros ->. Qed.

Lemma index_msg_queues_run w i j q :
  cell w i j = Some q → index_msg_queues i j w = (Returned (i, j), w).
Proof. unfold index_msg_queues. by intros ->. Qed.

Lemma on_queue_run {A} (f : Queue → A * Queue) w i j q (a : A) q' :
  cell w i j = Some q → f q = (a, q') →
  on_queue (i, j) f w = (Returned a, set_cell w i j q').
Proof. unfold on_queue. simpl. by intros -> ->. Qed.

Lemma load_sleeping_run w i (b : bool) :
  _thread_is_sleeping w !! i = Some b → load_sleeping i w = (Returned b, w).
Proof. unfold load_sleeping. by intros ->. Qed.


Lemma cell_same_queues w w0 i j :
  _msg_queues w0 = _msg_queues w → cell w0 i j = cell w i j.
Proof. unfold cell. by intros ->. Qed.

(** C3. [send_msg] to the caller's own thread id throws the invalid
    argument exception, whatever the message, and the world (every
    mailbox cell, every sleep flag, the event log) is left as it was. *)
Theorem send_msg_self r (msg : ptr) w :
  send_msg K os r (_thread_id r) msg w
  = (Thrown (invalid_argument "Attempting to send message to self"), w).
Proof. unfold send_msg. by rewrite decide_True. Qed.

(** The two ways [send_msg] to another thread can go. *)
Lemma send_msg_cases r (remote_id : nat) (msg : ptr) w q :
  world_ok max_nr_threads K w →
  remote_id ≠ _thread_id r →
  cell w remote_id (_thread_id r) = Some q →
  (queue_full K q → send_msg K os r remote_id msg w = (Returned false, w))
  ∧ (¬ queue_full K q →
     ∃ (w' : World) (q' : Queue) (sleeping : bool) (t : pthread_t),
       send_msg K os r remote_id msg w = (Returned true, w')
       ∧ world_ok max_nr_threads K w'
       ∧ cell w' remote_id (_thread_id r) = Some q'
       ∧ contents K q' = contents K q ++ [msg]
       ∧ (∀ i j, (i, j) ≠ (remote_id, _thread_id r) →
                 cell w' i j = cell w i j)
       ∧ _thread_is_sleeping w !! remote_id = Some sleeping
       ∧ _pthread_ids w !! remote_id = Some t
       ∧ _pthread_ids w' = _pthread_ids w
       ∧ _thread_is_sleeping w'
         = (if sleeping then <[remote_id := false]> (_thread_is_sleeping w)
            else _thread_is_sleeping w)
       ∧ events w'
         = events w ++
           (if sleeping
            then [Sys (sys_pthread_kill t SIGUSR1)
                      (os (events w) (sys_pthread_kill t SIGUSR1))]
            else [])).
Proof.
  intros Hok Hne Hcell.
  destruct (cell_Some_inv w _ _ q Hok Hcell) as (Hr & Ht & Hq).
  split.
  - intros Hfull. unfold send_msg. rewrite decide_False by assumption.
    rewrite (m_bind_run _ _ _ _ _ (index_msg_queues_run _ _ _ _ Hcell)).
    rewrite (m_bind_run _ _ _ _ _
               (on_queue_run _ _ _ _ _ _ _ Hcell
                  (try_to_emplace_full K msg q Hfull))).
    simpl. by rewrite (set_cell_id w _ _ q Hcell).
  - intros Hroom.
    destruct (try_to_emplace_room K msg q Hq Hroom) as (q' & E & Hc & Hq').
    pose proof Hok as (Hids & Hsl & _).
    destruct (lookup_lt_is_Some_2 (_thread_is_sleeping w) remote_id)
      as [sleeping Hsleeping]; [lia |].
    destruct (lookup_lt_is_Some_2 (_pthread_ids w) remote_id)
      as [t Hid]; [lia |].
    set (w1 := set_cell w remote_id (_thread_id r) q').
    exists (if sleeping
            then mkWorld (_pthread_ids w)
                   (<[remote_id := false]> (_thread_is_sleeping w))
                   (_msg_queues w1)
                   (events w ++ [Sys (sys_pthread_kill t SIGUSR1)
                      (os (events w) (sys_pthread_kill t SIGUSR1))])
            else w1),
      q', sleeping, t.
    unfold send_msg. rewrite decide_False by assumption.
    rewrite (m_bind_run _ _ _ _ _ (index_msg_queues_run _ _ _ _ Hcell)).
    rewrite (m_bind_run _ _ _ _ _ (on_queue_run _ _ _ _ _ _ _ Hcell E)).
    fold w1. simpl.
    rewrite (m_bind_run _ _ w1 sleeping w1)
      by (apply load_sleeping_run; exact Hsleeping).
    assert (Hok1 : world_ok max_nr_threads K w1) by by apply set_cell_ok.
    destruct sleeping.
    + unfold m_bind, store_sleeping, wake_up, m_bind, load_pthread_id, sys,
        m_pure. simpl. rewrite Hsleeping. simpl. rewrite Hid. simpl.
      split; [reflexivity |].
      split.
      { destruct Hok1 as (? & ? & ? & ?). unfold world_ok. simpl.
        rewrite length_insert. auto. }
      split; [rewrite (cell_same_queues w1) by reflexivity;
              by eapply cell_set_cell_eq |].
      split; [assumption |].
      split; [intros i j Hij; rewrite (cell_same_queues w1) by reflexivity;
              by apply cell_set_cell_ne |].
      auto.
    + unfold m_bind, m_pure. simpl.
      split; [reflexivity |].
      split; [assumption |].
      split; [by eapply cell_set_cell_eq |].
      split; [assumption |].
      split; [intros i j Hij; by apply cell_set_cell_ne |].
      rewrite app_nil_r. auto.
Qed.

(** C1. For a recipient [remote_id] other than the sender, whose cell
    [remote_id][sender] is in the table: if the cell is full, [send_msg]
    returns false and the world is unchanged (the cell keeps its contents
    and no signal is sent); otherwise it returns true with the message at
    the back of the cell, and if the recipient's sleep flag read true, the
    flag is now false and one SIGUSR1 went to the recipient's published
    thread identity, while if it read false nothing else changed. *)
Theorem send_msg_outcome r (remote_id : nat) (msg : ptr) w q :
  world_ok max_nr_threads K w →
  remote_id ≠ _thread_id r →
  cell w remote_id (_thread_id r) = Some q →
  (queue_full K q → send_msg K os r remote_id msg w = (Returned false, w))
  ∧ (¬ queue_full K q →
     ∃ (w' : World) (q' : Queue) (sleeping : bool) (t : pthread_t),
       send_msg K os r remote_id msg w = (Returned true, w')
       ∧ cell w' remote_id (_thread_id r) = Some q'
       ∧ contents K q' = contents K q ++ [msg]
       ∧ (∀ i j, (i, j) ≠ (remote_id, _thread_id r) →
                 cell w' i j = cell w i j)
       ∧ _thread_is_sleeping w !! remote_id = Some sleeping
       ∧ _pthread_ids w !! remote_id = Some t
       ∧ _pthread_ids w' = _pthread_ids w
       ∧ _thread_is_sleeping w'
         = (if sleeping then <[remote_id := false]> (_thread_is_sleeping w)
            else _thread_is_sleeping w)
       ∧ events w'
         = events w ++
           (if sleeping
            then [Sys (sys_pthread_kill t SIGUSR1)
                      (os (events w) (sys_pthread_kill t SIGUSR1))]
            else [])).
Proof.
  intros Hok Hne Hcell.
  destruct (send_msg_cases r remote_id msg w q Hok Hne Hcell) as [Hfull Hroom].
  split; [exact Hfull |].
  intros Hnot.
  destruct (Hroom Hnot) as (w' & q' & sleeping & t & Hrun & _ & Hrest).
  exists w', q', sleeping, t. auto.
Qed.

(** *** [has_messages] *)

Lemma peek_run w i j q :
  cell w i j = Some q →
  on_queue (i, j) (peek K) w = (Returned (front K q), w).
Proof.
  intros H. rewrite (on_queue_run (peek K) w i j q (front K q) q H eq_refl).
  by rewrite (set_cell_id w i j q H).
Qed.

(** Whatever the world, the scan gives it back as it found it. *)
Lemma has_messages_loop_world r (others : list nat) w :
  (has_messages_loop K r others w).2 = w.
Proof.
  induction others as [| other rest IH]; [reflexivity |].
  simpl. case_decide; [exact IH |].
  destruct (cell w (_thread_id r) other) as [q |] eqn:Hcell.
  - rewrite (m_bind_run _ _ _ _ _ (index_msg_queues_run _ _ _ _ Hcell)).
    rewrite (m_bind_run _ _ _ _ _ (peek_run _ _ _ _ Hcell)).
    destruct (front K q); [reflexivity | exact IH].
  - unfold m_bind, index_msg_queues. by rewrite Hcell.
Qed.

Lemma has_messages_loop_spec r (others : list nat) w :
  world_ok max_nr_threads K w →
  (_thread_id r < max_nr_threads)%nat →
  Forall (λ other, other < max_nr_threads)%nat others →
  ∃ b : bool,
    has_messages_loop K r others w = (Returned b, w)
    ∧ (b = true ↔
       ∃ other q, other ∈ others ∧ other ≠ _thread_id r
                  ∧ cell w (_thread_id r) other = Some q
                  ∧ contents K q ≠ []).
Proof.
  intros Hok Ht. induction others as [| other rest IH]; intros Hall.
  - exists false. split; [reflexivity |]. split; [discriminate |].
    intros (other & q & Hin & _). by apply elem_of_nil in Hin.
  - apply Forall_cons in Hall as [Ho Hrest].
    destruct (IH Hrest) as (b & Hrun & Hb). simpl.
    case_decide as Hself.
    + exists b. split; [assumption |]. rewrite Hb.
      split; intros (o & q & Hin & Hne & Hc).
      * exists o, q. rewrite elem_of_cons. auto.
      * exists o, q. apply elem_of_cons in Hin as [-> | Hin]; [done | auto].
    + destruct (cell_is_Some _ _ _ Hok Ht Ho) as (q & Hcell & Hq).
      rewrite (m_bind_run _ _ _ _ _ (index_msg_queues_run _ _ _ _ Hcell)).
      rewrite (m_bind_run _ _ _ _ _ (peek_run _ _ _ _ Hcell)).
      destruct (front K q) as [m |] eqn:Hfront.
      * exists true. split; [reflexivity |]. split; [| reflexivity].
        intros _. exists other, q. rewrite elem_of_cons.
        repeat split; auto.
        intros Hnil. apply (front_None K q Hq) in Hnil. congruence.
      * exists b. split; [assumption |]. rewrite Hb.
        apply (front_None K q Hq) in Hfront.
        split; intros (o & q0 & Hin & Hne & Hc & Hnn).
        -- exists o, q0. rewrite elem_of_cons. auto.
        -- exists o, q0. apply elem_of_cons in Hin as [-> | Hin]; [| auto].
           congruence.
Qed.

Lemma repeatedly_has_messages r (n : nat) w :
  world_ok max_nr_threads K w →
  (_thread_id r < max_nr_threads)%nat →
  (_nr_threads r ≤ max_nr_threads)%nat →
  repeatedly n (has_messages K r) w = (Returned (), w).
Proof.
  intros Hok Ht Hn. induction n as [| n IH]; [reflexivity |].
  simpl. destruct (has_messages_loop_spec r (seq 0 (_nr_threads r)) w Hok Ht)
    as (b & Hrun & _).
  { apply Forall_forall. intros o Ho. apply elem_of_seq in Ho. lia. }
  by rewrite (m_bind_run _ _ _ _ _ Hrun).
Qed.

(** C4. [has_messages] is a pure observer.  For a reactor within the
    tables it returns true exactly when some peer cell of its column is
    non-empty, and gives back the world it was given: every cell keeps its
    messages in their order.  Calling it any number of times changes
    nothing, and a [poll_messages] after such calls does exactly what it
    would have done without them. *)
Theorem has_messages_pure_observer r w :
  world_ok max_nr_threads K w →
  (_thread_id r < max_nr_threads)%nat →
  (_nr_threads r ≤ max_nr_threads)%nat →
  (∃ b : bool,
     has_messages K r w = (Returned b, w)
     ∧ (b = true ↔
        ∃ other q, (other < _nr_threads r)%nat ∧ other ≠ _thread_id r
                   ∧ cell w (_thread_id r) other = Some q
                   ∧ contents K q ≠ []))
  ∧ (∀ n : nat, repeatedly n (has_messages K r) w = (Returned (), w))
  ∧ (∀ n : nat,
       (repeatedly n (has_messages K r) ;;; poll_messages K r) w
       = poll_messages K r w).
Proof.
  intros Hok Ht Hn. split; [| split].
  - destruct (has_messages_loop_spec r (seq 0 (_nr_threads r)) w Hok Ht)
      as (b & Hrun & Hb).
    { apply Forall_forall. intros o Ho. apply elem_of_seq in Ho. lia. }
    exists b. split; [exact Hrun |]. rewrite Hb.
    split; intros (o & q & Hin & Hrest); exists o, q;
      (split; [| exact Hrest]).
    + apply elem_of_seq in Hin. lia.
    + apply elem_of_seq. lia.
  - intros n. by apply repeatedly_has_messages.
  - intros n.
    by rewrite (m_bind_run _ _ _ _ _ (repeatedly_has_messages r n w Hok Ht Hn)).
Qed.


(** *** [poll_messages] *)

Lemma cell_add_events w (evs : list event) i j :
  cell (add_events w evs) i j = cell w i j.
Proof. reflexivity. Qed.

Lemma add_events_ok w (evs : list event) :
  world_ok max_nr_threads K w → world_ok max_nr_threads K (add_events w evs).
Proof. intros H. exact H. Qed.

Lemma nonempty_app (a b : list ptr) :
  bool_decide (a ++ b ≠ []) = bool_decide (a ≠ []) || bool_decide (b ≠ []).
Proof.
  destruct a, b; reflexivity.
Qed.

Lemma waiting_cons w (thread_id other : nat) (rest : list nat) :
  waiting K w thread_id (other :: rest)
  = default [] (contents K <$> cell w thread_id other)
    ++ waiting K w thread_id rest.
Proof. reflexivity. Qed.

Lemma waiting_app w (thread_id : nat) (l1 l2 : list nat) :
  waiting K w thread_id (l1 ++ l2)
  = waiting K w thread_id l1 ++ waiting K w thread_id l2.
Proof. unfold waiting. apply bind_app. Qed.

Lemma waiting_ext w w1 (thread_id : nat) (others : list nat) :
  (∀ other, other ∈ others → cell w1 thread_id other = cell w thread_id other) →
  waiting K w1 thread_id others = waiting K w thread_id others.
Proof.
  induction others as [| o rest IH]; intros H; [reflexivity |].
  rewrite !waiting_cons. rewrite H by apply list_elem_of_here.
  f_equal. apply IH. intros other Hin. apply H. by apply list_elem_of_further.
Qed.

(** The inner loop, run through a reference to a cell. *)
Lemma drain_queue_run (thread_id : nat) (has : bool) w i j q :
  queue_ok K q → cell w i j = Some q →
  ∃ q', drain_queue K thread_id (i, j) has w
        = (Returned (has || bool_decide (contents K q ≠ [])),
           add_events (set_cell w i j q')
                      (on_message_fn thread_id <$> contents K q))
        ∧ contents K q' = [] ∧ queue_ok K q'.
Proof.
  intros Hq Hcell.
  destruct (drain_spec K thread_id q has (events w) Hq)
    as (q' & Hrun & Hempty & Hq').
  exists q'. unfold drain_queue. simpl. rewrite Hcell, Hrun. auto.
Qed.

Lemma poll_messages_loop_spec r (others : list nat) :
  (_thread_id r < max_nr_threads)%nat →
  Forall (λ other, other < max_nr_threads)%nat others →
  NoDup others →
  ∀ (has : bool) w,
    world_ok max_nr_threads K w →
    ∃ w',
      poll_messages_loop K r others has w
      = (Returned
           (has || bool_decide
              (waiting K w (_thread_id r)
                 (filter (λ other, other ≠ _thread_id r) others) ≠ [])),
         w')
      ∧ events w'
        = events w ++
          (on_message_fn (_thread_id r) <$>
             waiting K w (_thread_id r)
               (filter (λ other, other ≠ _thread_id r) others))
      ∧ (∀ other, other ∈ others → other ≠ _thread_id r →
           ∃ q', cell w' (_thread_id r) other = Some q'
                 ∧ contents K q' = [])
      ∧ (∀ i j, i ≠ _thread_id r ∨ j ∉ others ∨ j = _thread_id r →
                cell w' i j = cell w i j)
      ∧ _pthread_ids w' = _pthread_ids w
      ∧ _thread_is_sleeping w' = _thread_is_sleeping w
      ∧ world_ok max_nr_threads K w'.
Proof.
  intros Ht. induction others as [| other rest IH]; intros Hall Hnd has w Hok.
  - exists w. simpl. unfold m_pure, waiting. simpl.
    rewrite orb_false_r, app_nil_r.
    repeat split; try reflexivity; try apply Hok.
    intros other Hin. by apply elem_of_nil in Hin.
  - apply Forall_cons in Hall as [Ho Hrest].
    apply NoDup_cons in Hnd as [Hfresh Hnd].
    simpl. case_decide as Hself.
    + destruct (IH Hrest Hnd has w Hok)
        as (w' & Hrun & Hev & Hempty & Hsame & Hids & Hsl & Hok').
      exists w'. rewrite filter_cons_False by (intros H; by apply H).
      split; [exact Hrun |]. split; [exact Hev |].
      split.
      { intros o Hin Hne. apply elem_of_cons in Hin as [-> | Hin]; [done |].
        by apply Hempty. }
      split; [| auto].
      intros i j Hij. apply Hsame.
      rewrite elem_of_cons in Hij. tauto.
    + destruct (cell_is_Some _ _ _ Hok Ht Ho) as (q & Hcell & Hq).
      rewrite (m_bind_run _ _ _ _ _ (index_msg_queues_run _ _ _ _ Hcell)).
      destruct (drain_queue_run (_thread_id r) has w _ _ q Hq Hcell)
        as (q1 & Hdrain & Hq1nil & Hq1).
      rewrite (m_bind_run _ _ _ _ _ Hdrain).
      set (w1 := add_events (set_cell w (_thread_id r) other q1)
                   (on_message_fn (_thread_id r) <$> contents K q)) in *.
      assert (Hok1 : world_ok max_nr_threads K w1)
        by by apply add_events_ok, set_cell_ok.
      destruct (IH Hrest Hnd (has || bool_decide (contents K q ≠ [])) w1 Hok1)
        as (w' & Hrun & Hev & Hempty & Hsame & Hids & Hsl & Hok').
      assert (Hw1 : ∀ i j, (i, j) ≠ (_thread_id r, other) →
                cell w1 i j = cell w i j).
      { intros i j Hij. unfold w1. rewrite cell_add_events.
        by apply cell_set_cell_ne. }
      assert (Hwait : waiting K w1 (_thread_id r)
                (filter (λ o, o ≠ _thread_id r) rest)
              = waiting K w (_thread_id r)
                  (filter (λ o, o ≠ _thread_id r) rest)).
      { apply waiting_ext. intros o Hin. apply Hw1.
        apply list_elem_of_filter in Hin as [_ Hin]. congruence. }
      exists w'. rewrite filter_cons_True by assumption.
      rewrite !waiting_cons, Hcell. simpl.
      split.
      { rewrite Hrun, Hwait, nonempty_app, orb_assoc. reflexivity. }
      split.
      { rewrite Hev, Hwait. unfold w1. simpl.
        rewrite fmap_app, app_assoc. reflexivity. }
      split.
      { intros o Hin Hne. apply elem_of_cons in Hin as [-> | Hin].
        - exists q1. split; [| exact Hq1nil].
          rewrite Hsame by auto. unfold w1. rewrite cell_add_events.
          by eapply cell_set_cell_eq.
        - by apply Hempty. }
      split.
      { intros i j Hij. rewrite elem_of_cons in Hij.
        rewrite Hsame by tauto. apply Hw1. intros [= -> ->]. tauto. }
      rewrite Hids, Hsl. auto.
Qed.


(** A producer's successful sends line up at the back of its cell. *)
Lemma send_each_spec r (remote_id : nat) (msgs : list ptr) :
  remote_id ≠ _thread_id r →
  ∀ w q,
    world_ok max_nr_threads K w →
    cell w remote_id (_thread_id r) = Some q →
    ∃ (w' : World) (q' : Queue) (accepted : list ptr),
      send_each K os r remote_id msgs w = (Returned accepted, w')
      ∧ world_ok max_nr_threads K w'
      ∧ cell w' remote_id (_thread_id r) = Some q'
      ∧ contents K q' = contents K q ++ accepted
      ∧ (∀ i j, (i, j) ≠ (remote_id, _thread_id r) →
                cell w' i j = cell w i j)
      ∧ accepted `sublist_of` msgs.
Proof.
  intros Hne. induction msgs as [| msg rest IH]; intros w q Hok Hcell.
  - exists w, q, []. simpl. rewrite app_nil_r.
    repeat split; try apply Hok; auto; apply sublist_nil.
  - destruct (send_msg_cases r remote_id msg w q Hok Hne Hcell)
      as [Hfull Hroom].
    simpl. destruct (decide (K ≤ qsize q)%nat) as [Hf | Hr].
    + rewrite (m_bind_run _ _ _ _ _ (Hfull Hf)).
      destruct (IH w q Hok Hcell)
        as (w' & q' & acc & Hrun & Hok' & Hc' & Hcont & Hsame & Hsub).
      rewrite (m_bind_run _ _ _ _ _ Hrun).
      exists w', q', acc. repeat split; try apply Hok'; auto.
      all: by apply sublist_cons.
    + destruct (Hroom Hr)
        as (w1 & q1 & sl & t & Hrun1 & Hok1 & Hc1 & Hcont1 & Hsame1 & _).
      rewrite (m_bind_run _ _ _ _ _ Hrun1).
      destruct (IH w1 q1 Hok1 Hc1)
        as (w' & q' & acc & Hrun & Hok' & Hc' & Hcont & Hsame & Hsub).
      rewrite (m_bind_run _ _ _ _ _ Hrun).
      exists w', q', (msg :: acc).
      split; [reflexivity |]. split; [exact Hok' |]. split; [exact Hc' |].
      split; [rewrite Hcont, Hcont1, <- app_assoc; reflexivity |].
      split; [| by apply sublist_skip].
      intros i j Hij. rewrite Hsame by assumption. by apply Hsame1.
Qed.

Lemma peers_split r (p : nat) :
  (p < _nr_threads r)%nat → p ≠ _thread_id r →
  peers r
  = filter (λ other, other ≠ _thread_id r) (seq 0 p)
    ++ p :: filter (λ other, other ≠ _thread_id r)
                   (seq (S p) (_nr_threads r - S p)).
Proof.
  intros Hp Hne. unfold peers.
  replace (_nr_threads r) with (p + S (_nr_threads r - S p))%nat at 1 by lia.
  rewrite seq_app, filter_app. simpl.
  by rewrite filter_cons_True.
Qed.

(** C2. [poll_messages] of a reactor within the tables empties every peer
    cell of its column, calls the callback once for each message that was
    waiting, cell by cell in scan order and oldest first within a cell,
    and returns true exactly when there was a message.  For a fixed
    producer: whatever it sends one after the other, the messages that
    [send_msg] accepted join the ones already in its cell, in sending
    order, and the next [poll_messages] delivers precisely these, each
    once, between the messages of the peers scanned before and after. *)
Theorem poll_messages_delivery r w :
  world_ok max_nr_threads K w →
  (_thread_id r < max_nr_threads)%nat →
  (_nr_threads r ≤ max_nr_threads)%nat →
  (∃ w' : World,
     poll_messages K r w = (Returned (bool_decide (pending K w r ≠ [])), w')
     ∧ events w'
       = events w ++ (on_message_fn (_thread_id r) <$> pending K w r)
     ∧ (∀ other, other ∈ peers r →
          ∃ q', cell w' (_thread_id r) other = Some q' ∧ contents K q' = [])
     ∧ (∀ i j, i ≠ _thread_id r → cell w' i j = cell w i j))
  ∧ (∀ (producer : Reactor) (msgs : list ptr),
       (_thread_id producer < _nr_threads r)%nat →
       _thread_id producer ≠ _thread_id r →
       ∃ (q : Queue) (w1 w2 : World) (accepted before after : list ptr),
         cell w (_thread_id r) (_thread_id producer) = Some q
         ∧ send_each K os producer (_thread_id r) msgs w
           = (Returned accepted, w1)
         ∧ accepted `sublist_of` msgs
         ∧ pending K w r = before ++ contents K q ++ after
         ∧ pending K w1 r = before ++ (contents K q ++ accepted) ++ after
         ∧ (poll_messages K r w1).2 = w2
         ∧ events w2
           = events w1 ++
             (on_message_fn (_thread_id r) <$>
                before ++ (contents K q ++ accepted) ++ after)).
Proof.
  intros Hok Ht Hn.
  assert (Hall : Forall (λ other, other < max_nr_threads)%nat
                   (seq 0 (_nr_threads r))).
  { apply Forall_forall. intros o Ho. apply elem_of_seq in Ho. lia. }
  assert (Hpoll : ∀ w0, world_ok max_nr_threads K w0 →
            ∃ w', poll_messages K r w0
                  = (Returned (bool_decide (pending K w0 r ≠ [])), w')
              ∧ events w'
                = events w0 ++ (on_message_fn (_thread_id r) <$> pending K w0 r)
              ∧ (∀ other, other ∈ peers r →
                   ∃ q', cell w' (_thread_id r) other = Some q'
                         ∧ contents K q' = [])
              ∧ (∀ i j, i ≠ _thread_id r → cell w' i j = cell w0 i j)).
  { intros w0 Hok0.
    destruct (poll_messages_loop_spec r (seq 0 (_nr_threads r)) Ht Hall
                (NoDup_seq _ _) false w0 Hok0)
      as (w' & Hrun & Hev & Hempty & Hsame & _).
    exists w'. split; [exact Hrun |]. split; [exact Hev |]. split.
    - intros o Ho. apply list_elem_of_filter in Ho as [Hne Hin]. auto.
    - intros i j Hi. apply Hsame. auto. }
  split; [by apply Hpoll |].
  intros producer msgs Hp Hne.
  destruct (cell_is_Some w (_thread_id r) (_thread_id producer) Hok Ht)
    as (q & Hcell & Hq); [lia |].
  destruct (send_each_spec producer (_thread_id r) msgs (not_eq_sym Hne)
              w q Hok Hcell)
    as (w1 & q' & accepted & Hrun & Hok1 & Hc1 & Hcont & Hsame & Hsub).
  destruct (Hpoll w1 Hok1) as (w2 & Hrun2 & Hev2 & _).
  set (pre := filter (λ other, other ≠ _thread_id r)
                (seq 0 (_thread_id producer))).
  set (post := filter (λ other, other ≠ _thread_id r)
                 (seq (S (_thread_id producer))
                      (_nr_threads r - S (_thread_id producer)))).
  assert (Hsplit : ∀ w0 q0,
            cell w0 (_thread_id r) (_thread_id producer) = Some q0 →
            pending K w0 r
            = waiting K w0 (_thread_id r) pre
              ++ contents K q0 ++ waiting K w0 (_thread_id r) post).
  { intros w0 q0 H0. unfold pending.
    rewrite (peers_split r (_thread_id producer) Hp Hne).
    fold pre post. rewrite waiting_app, waiting_cons, H0. reflexivity. }
  assert (Hpre : waiting K w1 (_thread_id r) pre
                 = waiting K w (_thread_id r) pre).
  { apply waiting_ext. intros o Ho. apply Hsame.
    apply list_elem_of_filter in Ho as [_ Ho]. apply elem_of_seq in Ho.
    intros [= E]. lia. }
  assert (Hpost : waiting K w1 (_thread_id r) post
                  = waiting K w (_thread_id r) post).
  { apply waiting_ext. intros o Ho. apply Hsame.
    apply list_elem_of_filter in Ho as [_ Ho]. apply elem_of_seq in Ho.
    intros [= E]. lia. }
  exists q, w1, w2, accepted, (waiting K w (_thread_id r) pre),
    (waiting K w (_thread_id r) post).
  split; [exact Hcell |]. split; [exact Hrun |]. split; [exact Hsub |].
  split; [by apply Hsplit |].
  assert (Hp1 : pending K w1 r
                = waiting K w (_thread_id r) pre
                  ++ (contents K q ++ accepted)
                  ++ waiting K w (_thread_id r) post).
  { rewrite (Hsplit w1 q' Hc1), Hpre, Hpost, Hcont. reflexivity. }
  split; [exact Hp1 |].
  split; [by rewrite Hrun2 |].
  by rewrite Hev2, Hp1.
Qed.


(** *** Staying inside the static tables *)

Lemma send_msg_out_of_range r (remote_id : nat) (msg : ptr) w :
  world_ok max_nr_threads K w →
  remote_id ≠ _thread_id r →
  (max_nr_threads ≤ remote_id)%nat →
  send_msg K os r remote_id msg w = (Undefined array_index_out_of_bounds, w).
Proof.
  intros Hok Hne Hout. unfold send_msg. rewrite decide_False by assumption.
  unfold m_bind, index_msg_queues.
  by rewrite (cell_None w remote_id (_thread_id r) Hok) by auto.
Qed.

(** C10, as amended. [send_msg] checks its argument against the caller's
    own id and nothing else.  For a reactor whose own [thread_id] is below
    [max_nr_threads] and whose [nr_threads] is at most [max_nr_threads]:
    [send_msg] to another thread stays inside the tables exactly when
    [remote_id] is below [max_nr_threads], and [has_messages] and
    [poll_messages] stay inside them. *)
Theorem table_access_in_bounds r (remote_id : nat) (msg : ptr) w :
  world_ok max_nr_threads K w →
  (_thread_id r < max_nr_threads)%nat →
  (_nr_threads r ≤ max_nr_threads)%nat →
  remote_id ≠ _thread_id r →
  ((remote_id < max_nr_threads)%nat ↔
   (send_msg K os r remote_id msg w).1 ≠ Undefined array_index_out_of_bounds)
  ∧ (has_messages K r w).1 ≠ Undefined array_index_out_of_bounds
  ∧ (poll_messages K r w).1 ≠ Undefined array_index_out_of_bounds.
Proof.
  intros Hok Ht Hn Hne. split; [split |].
  - intros Hr.
    destruct (cell_is_Some w remote_id (_thread_id r) Hok Hr Ht)
      as (q & Hcell & Hq).
    destruct (send_msg_cases r remote_id msg w q Hok Hne Hcell)
      as [Hfull Hroom].
    destruct (decide (K ≤ qsize q)%nat) as [Hf | Hf].
    + by rewrite (Hfull Hf).
    + destruct (Hroom Hf) as (w' & ? & ? & ? & -> & _). discriminate.
  - intros Hdef. destruct (decide (remote_id < max_nr_threads)%nat) as [| Hge];
      [assumption |].
    rewrite send_msg_out_of_range in Hdef by (auto; lia). by destruct Hdef.
  - assert (Hall : Forall (λ other, other < max_nr_threads)%nat
                     (seq 0 (_nr_threads r))).
    { apply Forall_forall. intros o Ho. apply elem_of_seq in Ho. lia. }
    split.
    + destruct (has_messages_loop_spec r _ w Hok Ht Hall) as (b & Hrun & _).
      unfold has_messages. by rewrite Hrun.
    + destruct (poll_messages_loop_spec r _ Ht Hall (NoDup_seq _ _) false w Hok)
        as (w' & Hrun & _).
      unfold poll_messages. by rewrite Hrun.
Qed.


End FabricProperties.

(** Filling a cell: with two slots, the first two messages are taken and
    the third is refused; once the recipient has polled, there is room
    again. *)
Example fabric_fill :
  (send_each 2 (answering 0 0) (mkReactor 0 3) 1 [77; 78; 79]
             (world_init 3 2)).1
  = Returned [77; 78]
  ∧ (send_msg 2 (answering 0 0) (mkReactor 0 3) 1 79
       (poll_messages 2 (mkReactor 1 3) two_sent).2).1
    = Returned true.
Proof. split; vm_compute; reflexivity. Qed.

Lemma send_msg_outcome_witness :
  send_msg 2 (answering 0 0) (mkReactor 0 3) 1 79 two_sent
  = (Returned false, two_sent).
Proof.
  apply (send_msg_outcome 3 2 (answering 0 0) (mkReactor 0 3) 1 79 two_sent
           (mkQueue [77; 78] 2 0)).
  - world_ok_by_evaluation.
  - simpl. lia.
  - reflexivity.
  - unfold queue_full, qsize. simpl. lia.
Defined.

Lemma has_messages_pure_observer_witness :
  repeatedly 3 (has_messages 2 (mkReactor 1 3)) two_sent
  = (Returned (), two_sent).
Proof.
  refine (proj1 (proj2 (has_messages_pure_observer 3 2 (mkReactor 1 3)
                          two_sent _ _ _)) 3%nat).
  - world_ok_by_evaluation.
  - simpl. lia.
  - simpl. lia.
Defined.

Lemma poll_messages_delivery_witness :
  ∃ w' : World,
    poll_messages 2 (mkReactor 1 3) two_sent = (Returned true, w')
    ∧ events w' = [on_message_fn 1 77; on_message_fn 1 78].
Proof.
  assert (Hok : world_ok 3 2 two_sent) by world_ok_by_evaluation.
  assert (Ht : (_thread_id (mkReactor 1 3) < 3)%nat) by (simpl; lia).
  assert (Hn : (_nr_threads (mkReactor 1 3) ≤ 3)%nat) by (simpl; lia).
  destruct (proj1 (poll_messages_delivery 3 2 (answering 0 0) (mkReactor 1 3)
                     two_sent Hok Ht Hn))
    as (w' & Hrun & Hev & _).
  exists w'. split; [exact Hrun | exact Hev].
Defined.

(** C10 as stated fails: tables for three threads, [remote_id] 1 below
    [max_nr_threads].  A reactor that [Reactor::Reactor] builds without
    leaving the tables, with [nr_threads] 4, sends in bounds, yet both of
    its scans run past the end of its row; and a reactor whose own
    [thread_id] is 7 leaves the tables in [send_msg] itself. *)
Lemma table_access_counterexample :
  world_ok 3 2 (world_init 3 2)
  ∧ (1 < 3)%nat
  ∧ (Reactor_ctor (answering 0 0) 0 4 (world_init 3 2)).1
    = Returned (mkReactor 0 4)
  ∧ (send_msg 2 (answering 0 0) (mkReactor 0 4) 1 77 (world_init 3 2)).1
    = Returned true
  ∧ (has_messages 2 (mkReactor 0 4) (world_init 3 2)).1
    = Undefined array_index_out_of_bounds
  ∧ (poll_messages 2 (mkReactor 0 4) (world_init 3 2)).1
    = Undefined array_index_out_of_bounds
  ∧ (send_msg 2 (answering 0 0) (mkReactor 7 3) 1 77 (world_init 3 2)).1
    = Undefined array_index_out_of_bounds.
Proof.
  split; [world_ok_by_evaluation |].
  split; [lia |].
  repeat split; vm_compute; reflexivity.
Qed.

Lemma table_access_in_bounds_witness :
  ((1 < 3)%nat ↔
   (send_msg 2 (answering 0 0) (mkReactor 0 3) 1 77 (world_init 3 2)).1
   ≠ Undefined array_index_out_of_bounds)
  ∧ (has_messages 2 (mkReactor 0 3) (world_init 3 2)).1
    ≠ Undefined array_index_out_of_bounds
  ∧ (poll_messages 2 (mkReactor 0 3) (world_init 3 2)).1
    ≠ Undefined array_index_out_of_bounds.
Proof.
  apply (table_access_in_bounds 3 2 (answering 0 0) (mkReactor 0 3) 1 77
           (world_init 3 2)).
  - world_ok_by_evaluation.
  - simpl. lia.
  - simpl. lia.
  - simpl. lia.
Defined.

(** ** Choosing the back end *)

Section BackendProperties.

Variable os : kernel.
Variable EpollReactor_setup : Reactor → M unit.

Lemma Reactor_ctor_returns (thread_id nr_threads : nat) (w w' : World)
    (r : Reactor) :
  Reactor_ctor os thread_id nr_threads w = (Returned r, w') →
  r = mkReactor thread_id nr_threads.
Proof.
  unfold Reactor_ctor, m_bind, sys, store_sleeping, store_pthread_id, m_pure,
    throw. simpl.
  repeat match goal with
  | |- context [ ?a <? ?b ] => destruct (Z.ltb_spec a b); simpl
  | |- context [ match ?l !! ?i with _ => _ end ] => destruct (l !! i); simpl
  end; congruence.
Qed.

(** Construction succeeds when its two system calls do and the thread
    id is within the tables. *)
Lemma Reactor_ctor_succeeds (thread_id nr_threads : nat) (w : World) :
  0 ≤ ret (sigaction_reply os w) →
  0 ≤ ret (sigmask_reply os w) →
  (thread_id < length (_thread_is_sleeping w))%nat →
  (thread_id < length (_pthread_ids w))%nat →
  Reactor_ctor os thread_id nr_threads w
  = (Returned (mkReactor thread_id nr_threads), constructed os thread_id w).
Proof.
  intros Ha Hm Hsl Hid.
  destruct (lookup_lt_is_Some_2 _ _ Hsl) as [b0 Hb0].
  destruct (lookup_lt_is_Some_2 _ _ Hid) as [t0 Ht0].
  unfold Reactor_ctor, m_bind, sys. simpl.
  fold (sigaction_reply os w).
  destruct (Z.ltb_spec (ret (sigaction_reply os w)) 0); [lia |]. simpl.
  fold (sigmask_reply os w).
  destruct (Z.ltb_spec (ret (sigmask_reply os w)) 0); [lia |].
  unfold store_sleeping, store_pthread_id, m_pure. simpl.
  rewrite Hb0. simpl. rewrite Ht0. simpl.
  unfold constructed, self_reply. by rewrite <- !app_assoc.
Qed.

(** C8. The default back end is called "epoll".  Under that name
    [make_reactor] constructs an [EpollReactor] for the given thread id
    and thread count: when [sigaction] and [pthread_sigmask] succeed, the
    thread id is within the tables and the back end's own set-up returns,
    [make_reactor] returns that epoll reactor, over the world the
    constructor and the set-up leave; an exception of the constructor or
    of the set-up is the exception of [make_reactor]; and whatever it
    returns is that epoll reactor.  Under any other name it throws the
    invalid argument exception "unrecognized '<name>' backend" and
    touches nothing. *)
Theorem make_reactor_backend (backend : string) (thread_id nr_threads : nat)
    (w : World) :
  default_backend = "epoll"
  ∧ make_reactor os EpollReactor_setup default_backend thread_id nr_threads w
    = EpollReactor_ctor os EpollReactor_setup thread_id nr_threads w
  ∧ (0 ≤ ret (sigaction_reply os w) →
     0 ≤ ret (sigmask_reply os w) →
     (thread_id < length (_thread_is_sleeping w))%nat →
     (thread_id < length (_pthread_ids w))%nat →
     ∀ w2 : World,
       EpollReactor_setup (mkReactor thread_id nr_threads)
                          (constructed os thread_id w)
       = (Returned (), w2) →
       make_reactor os EpollReactor_setup "epoll" thread_id nr_threads w
       = (Returned (EpollReactor (mkReactor thread_id nr_threads)), w2))
  ∧ (∀ (base : Reactor) (w1 w2 : World),
       Reactor_ctor os thread_id nr_threads w = (Returned base, w1) →
       EpollReactor_setup base w1 = (Returned (), w2) →
       make_reactor os EpollReactor_setup "epoll" thread_id nr_threads w
       = (Returned (EpollReactor base), w2))
  ∧ (∀ (e : exn) (w1 : World),
       Reactor_ctor os thread_id nr_threads w = (Thrown e, w1) →
       make_reactor os EpollReactor_setup "epoll" thread_id nr_threads w
       = (Thrown e, w1))
  ∧ (∀ (base : Reactor) (e : exn) (w1 w2 : World),
       Reactor_ctor os thread_id nr_threads w = (Returned base, w1) →
       EpollReactor_setup base w1 = (Thrown e, w2) →
       make_reactor os EpollReactor_setup "epoll" thread_id nr_threads w
       = (Thrown e, w2))
  ∧ (∀ (obj : reactor_object) (w' : World),
       make_reactor os EpollReactor_setup "epoll" thread_id nr_threads w
       = (Returned obj, w') →
       obj = EpollReactor (mkReactor thread_id nr_threads))
  ∧ (backend ≠ "epoll" →
     make_reactor os EpollReactor_setup backend thread_id nr_threads w
     = (Thrown (invalid_argument ("unrecognized '" +:+ backend +:+ "' backend")),
        w)).
Proof.
  assert (Hret : ∀ (base : Reactor) (w1 w2 : World),
            Reactor_ctor os thread_id nr_threads w = (Returned base, w1) →
            EpollReactor_setup base w1 = (Returned (), w2) →
            make_reactor os EpollReactor_setup "epoll" thread_id nr_threads w
            = (Returned (EpollReactor base), w2)).
  { intros base w1 w2 Hctor Hsetup. unfold make_reactor. simpl.
    unfold EpollReactor_ctor.
    rewrite (m_bind_run _ _ _ _ _ Hctor), (m_bind_run _ _ _ _ _ Hsetup).
    reflexivity. }
  split; [reflexivity |]. split; [reflexivity |].
  split; [| split; [exact Hret | split; [| split; [| split]]]].
  - intros Ha Hm Hsl Hid w2 Hsetup.
    apply (Hret _ (constructed os thread_id w)); [| exact Hsetup].
    by apply Reactor_ctor_succeeds.
  - intros e w1 Hctor. unfold make_reactor. simpl.
    unfold EpollReactor_ctor, m_bind. by rewrite Hctor.
  - intros base e w1 w2 Hctor Hsetup. unfold make_reactor. simpl.
    unfold EpollReactor_ctor. rewrite (m_bind_run _ _ _ _ _ Hctor).
    unfold m_bind. by rewrite Hsetup.
  - intros obj w'. unfold make_reactor. simpl.
    unfold EpollReactor_ctor. unfold m_bind at 1.
    destruct (Reactor_ctor os thread_id nr_threads w) as [[base | e | u] w1]
      eqn:Hctor; try discriminate.
    apply Reactor_ctor_returns in Hctor as ->.
    unfold m_bind, m_pure.
    destruct (EpollReactor_setup _ w1) as [[[] | e | u] w2]; congruence.
  - intros Hne. unfold make_reactor.
    by rewrite (proj2 (String.eqb_neq backend "epoll") Hne).
Qed.

End BackendProperties.

Lemma make_reactor_backend_witness :
  make_reactor (answering 0 0) (λ _, m_pure ()) "epoll" 1 3 (world_init 3 2)
  = (Returned (EpollReactor (mkReactor 1 3)),
     constructed (answering 0 0) 1 (world_init 3 2))
  ∧ make_reactor (answering 0 0) (λ _, m_pure ()) "kqueue" 1 3
                 (world_init 3 2)
    = (Thrown (invalid_argument "unrecognized 'kqueue' backend"),
       world_init 3 2).
Proof.
  split.
  - apply (proj1 (proj2 (proj2
             (make_reactor_backend (answering 0 0) (λ _, m_pure ()) "kqueue"
                1 3 (world_init 3 2))))).
    + simpl. lia.
    + simpl. lia.
    + simpl. lia.
    + simpl. lia.
    + reflexivity.
  - apply (make_reactor_backend (answering 0 0) (λ _, m_pure ()) "kqueue" 1 3
             (world_init 3 2)).
    discriminate.
Defined.

(** On a kernel that answers 0 to everything, the epoll reactor of
    thread 1 of 3 comes back. *)
Example make_reactor_epoll :
  (make_reactor (answering 0 0) (λ _, m_pure ()) "epoll" 1 3
                (world_init 3 2)).1
  = Returned (EpollReactor (mkReactor 1 3)).
Proof. vm_compute. reflexivity. Qed.

(** * Further properties of the socket handles *)

Lemma opened_app (a b : list event) : opened (a ++ b) = opened a ++ opened b.
Proof. unfold opened. apply bind_app. Qed.

Lemma closed_app (a b : list event) : closed (a ++ b) = closed a ++ closed b.
Proof. unfold closed. apply bind_app. Qed.

Lemma freed_app (a b : list event) : freed (a ++ b) = (freed a + freed b)%nat.
Proof. unfold freed. by rewrite bind_app, length_app. Qed.

Lemma signals_app (a b : list event) :
  signals (a ++ b) = signals a ++ signals b.
Proof. unfold signals. apply bind_app. Qed.


Section SocketLifecycle.

Variable os : kernel.
Variable gai_strerror : Z → string.

Lemma sys_run (c : syscall) (w : World) :
  sys os c w = (Returned (os (events w) c),
                add_events w [Sys c (os (events w) c)]).
Proof. reflexivity. Qed.

(** [TcpListener::on_read_event] makes one [accept4] call asking for a
    non-blocking connection.  If the call fails the system error
    "accept4" with the kernel's [errno] is thrown and the accept callback
    is not called; otherwise the callback is called once, with the new
    descriptor. *)
Theorem accept_outcome (l : TcpListener) (w : World) (r : reply) :
  r = os (events w) (sys_accept4 (listener_sockfd l) SOCK_NONBLOCK) →
  (ret r < 0 →
   TcpListener_on_read_event os l w
   = (Thrown (system_error (errno r) "accept4"),
      add_events w [Sys (sys_accept4 (listener_sockfd l) SOCK_NONBLOCK) r]))
  ∧ (0 ≤ ret r →
     TcpListener_on_read_event os l w
     = (Returned (),
        add_events w [Sys (sys_accept4 (listener_sockfd l) SOCK_NONBLOCK) r;
                      accept_fn (ret r)])).
Proof.
  intros ->. unfold TcpListener_on_read_event, TcpListener_accept.
  rewrite (m_bind_run _ _ _ _ _ (sys_run _ _)).
  split; intros H; case_tests; try lia.
  - reflexivity.
  - unfold log, add_events. simpl. by rewrite <- app_assoc.
Qed.

(** When the name look-up fails, either factory throws the runtime error
    "'<iface>': <gai_strerror(err)>"; the look-up is the only call made:
    no socket is created and nothing is freed. *)
Theorem factories_lookup_failure (iface : string) (port backlog : Z)
    (w : World) (tcp udp : reply) :
  tcp = os (events w) (getaddrinfo_call iface port SOCK_STREAM) →
  udp = os (events w) (getaddrinfo_call iface port SOCK_DGRAM) →
  (ret tcp ≠ 0 →
   make_tcp_listener os gai_strerror iface port backlog w
   = (Thrown (runtime_error
                ("'" +:+ iface +:+ "': " +:+ gai_strerror (ret tcp))),
      add_events w [Sys (getaddrinfo_call iface port SOCK_STREAM) tcp]))
  ∧ (ret udp ≠ 0 →
     make_udp_socket os gai_strerror iface port w
     = (Thrown (runtime_error
                  ("'" +:+ iface +:+ "': " +:+ gai_strerror (ret udp))),
        add_events w [Sys (getaddrinfo_call iface port SOCK_DGRAM) udp])).
Proof.
  intros -> ->.
  unfold make_tcp_listener, make_udp_socket, lookup_addresses,
    getaddrinfo_call.
  split; intros H; unfold m_bind at 1;
    rewrite (m_bind_run _ _ _ _ _ (sys_run _ _));
    case_tests; try lia; reflexivity.
Qed.

Lemma balanced_step {A} (fd_of : A → Z) (out : result A * World)
    (w : World) (iface : string) (pre : list event) :
  opened pre = closed pre → freed pre = 0%nat →
  balanced fd_of out (add_events w pre) iface →
  balanced fd_of out w iface.
Proof.
  intros Hoc Hf (new & Hw & Hfreed & Hout).
  exists (pre ++ new). rewrite Hw, add_events_app.
  split; [reflexivity |].
  split; [rewrite freed_app; lia |].
  rewrite opened_app, closed_app, Hoc.
  destruct out.1 as [h | e | u]; [| | assumption].
  - by rewrite Hout, app_assoc.
  - destruct Hout as [-> ->]. auto.
Qed.

Lemma make_tcp_listener_loop_balanced (iface : string) (backlog : Z)
    (rp : list addrinfo) (w : World) :
  balanced listener_sockfd (make_tcp_listener_loop os iface backlog rp w)
           w iface.
Proof.
  revert w. induction rp as [| a rest IH]; intros w.
  - simpl. rewrite (m_bind_run _ _ _ _ _ (sys_run _ _)).
    eexists. split; [reflexivity |]. simpl. auto.
  - simpl. rewrite (m_bind_run _ _ _ _ _ (sys_run _ _)).
    set (s := os (events w) _).
    destruct (Z.ltb_spec (ret s) 0) as [Hs | Hs].
    { eapply balanced_step; [| | apply IH]; unfold opened, closed, freed;
        simpl; destruct (Z.ltb_spec (ret s) 0); try lia; reflexivity. }
    rewrite (m_bind_run _ _ _ _ _ (sys_run _ _)).
    rewrite (m_bind_run _ _ _ _ _ (sys_run _ _)).
    match goal with |- context [ret ?r <? 0] => set (b := r) end.
    destruct (Z.ltb_spec (ret b) 0) as [Hb | Hb].
    { rewrite (m_bind_run _ _ _ _ _ (sys_run _ _)).
      rewrite !add_events_app. simpl.
      eapply balanced_step; [| | apply IH]; unfold opened, closed, freed;
        simpl; destruct (Z.ltb_spec (ret s) 0); try lia; reflexivity. }
    rewrite (m_bind_run _ _ _ _ _ (sys_run _ _)).
    match goal with |- context [ret ?r <? 0] => set (li := r) end.
    destruct (Z.ltb_spec (ret li) 0) as [Hl | Hl].
    { rewrite (m_bind_run _ _ _ _ _ (sys_run _ _)).
      rewrite !add_events_app. simpl.
      eapply balanced_step; [| | apply IH]; unfold opened, closed, freed;
        simpl; destruct (Z.ltb_spec (ret s) 0); try lia; reflexivity. }
    rewrite (m_bind_run _ _ _ _ _ (sys_run _ _)).
    rewrite !add_events_app. simpl.
    eexists. split; [reflexivity |]. unfold opened, closed, freed. simpl.
    destruct (Z.ltb_spec (ret s) 0); try lia. auto.
Qed.

Lemma make_udp_socket_loop_balanced (iface : string) (rp : list addrinfo)
    (w : World) :
  balanced udp_sockfd (make_udp_socket_loop os iface rp w) w iface.
Proof.
  revert w. induction rp as [| a rest IH]; intros w.
  - simpl. rewrite (m_bind_run _ _ _ _ _ (sys_run _ _)).
    eexists. split; [reflexivity |]. simpl. auto.
  - simpl. rewrite (m_bind_run _ _ _ _ _ (sys_run _ _)).
    set (s := os (events w) _).
    destruct (Z.ltb_spec (ret s) 0) as [Hs | Hs].
    { eapply balanced_step; [| | apply IH]; unfold opened, closed, freed;
        simpl; destruct (Z.ltb_spec (ret s) 0); try lia; reflexivity. }
    rewrite (m_bind_run _ _ _ _ _ (sys_run _ _)).
    rewrite (m_bind_run _ _ _ _ _ (sys_run _ _)).
    match goal with |- context [ret ?r <? 0] => set (b := r) end.
    destruct (Z.ltb_spec (ret b) 0) as [Hb | Hb].
    { rewrite (m_bind_run _ _ _ _ _ (sys_run _ _)).
      rewrite !add_events_app. simpl.
      eapply balanced_step; [| | apply IH]; unfold opened, closed, freed;
        simpl; destruct (Z.ltb_spec (ret s) 0); try lia; reflexivity. }
    rewrite (m_bind_run _ _ _ _ _ (sys_run _ _)).
    rewrite !add_events_app. simpl.
    eexists. split; [reflexivity |]. unfold opened, closed, freed. simpl.
    destruct (Z.ltb_spec (ret s) 0); try lia. auto.
Qed.

Lemma make_tcp_listener_run (iface : string) (port backlog : Z) (w : World) :
  make_tcp_listener os gai_strerror iface port backlog w
  = if ret (os (events w) (getaddrinfo_call iface port SOCK_STREAM)) =? 0
    then make_tcp_listener_loop os iface backlog
           (res (os (events w) (getaddrinfo_call iface port SOCK_STREAM)))
           (add_events w
              [Sys (getaddrinfo_call iface port SOCK_STREAM)
                   (os (events w) (getaddrinfo_call iface port SOCK_STREAM))])
    else (Thrown (runtime_error
                    ("'" +:+ iface +:+ "': " +:+
                     gai_strerror
                       (ret (os (events w)
                                (getaddrinfo_call iface port SOCK_STREAM))))),
          add_events w
            [Sys (getaddrinfo_call iface port SOCK_STREAM)
                 (os (events w) (getaddrinfo_call iface port SOCK_STREAM))]).
Proof.
  unfold make_tcp_listener, lookup_addresses, getaddrinfo_call.
  unfold m_bind at 1. rewrite (m_bind_run _ _ _ _ _ (sys_run _ _)).
  by case_tests.
Qed.

Lemma make_udp_socket_run (iface : string) (port : Z) (w : World) :
  make_udp_socket os gai_strerror iface port w
  = if ret (os (events w) (getaddrinfo_call iface port SOCK_DGRAM)) =? 0
    then make_udp_socket_loop os iface
           (res (os (events w) (getaddrinfo_call iface port SOCK_DGRAM)))
           (add_events w
              [Sys (getaddrinfo_call iface port SOCK_DGRAM)
                   (os (events w) (getaddrinfo_call iface port SOCK_DGRAM))])
    else (Thrown (runtime_error
                    ("'" +:+ iface +:+ "': " +:+
                     gai_strerror
                       (ret (os (events w)
                                (getaddrinfo_call iface port SOCK_DGRAM))))),
          add_events w
            [Sys (getaddrinfo_call iface port SOCK_DGRAM)
                 (os (events w) (getaddrinfo_call iface port SOCK_DGRAM))]).
Proof.
  unfold make_udp_socket, lookup_addresses, getaddrinfo_call.
  unfold m_bind at 1. rewrite (m_bind_run _ _ _ _ _ (sys_run _ _)).
  by case_tests.
Qed.

(** The ledger of descriptors over a whole factory call. *)
Lemma make_tcp_listener_ledger (iface : string) (port backlog : Z) (w : World) :
  ∃ new : list event,
    (make_tcp_listener os gai_strerror iface port backlog w).2
    = add_events w new
    ∧ match (make_tcp_listener os gai_strerror iface port backlog w).1 with
      | Returned l => opened new = closed new ++ [listener_sockfd l]
      | Thrown _ => opened new = closed new
      | Undefined _ => False
      end.
Proof.
  rewrite make_tcp_listener_run.
  set (c := getaddrinfo_call _ _ _). set (r := os (events w) c).
  destruct (ret r =? 0).
  - destruct (make_tcp_listener_loop_balanced iface backlog (res r)
                (add_events w [Sys c r])) as (new & Hw & _ & Hout).
    exists (Sys c r :: new). rewrite Hw, add_events_app.
    split; [reflexivity |].
    destruct (make_tcp_listener_loop _ _ _ _ _).1;
      [exact Hout | exact (proj1 Hout) | exact Hout].
  - exists [Sys c r]. split; reflexivity.
Qed.

Lemma make_udp_socket_ledger (iface : string) (port : Z) (w : World) :
  ∃ new : list event,
    (make_udp_socket os gai_strerror iface port w).2 = add_events w new
    ∧ match (make_udp_socket os gai_strerror iface port w).1 with
      | Returned s => opened new = closed new ++ [udp_sockfd s]
      | Thrown _ => opened new = closed new
      | Undefined _ => False
      end.
Proof.
  rewrite make_udp_socket_run.
  set (c := getaddrinfo_call _ _ _). set (r := os (events w) c).
  destruct (ret r =? 0).
  - destruct (make_udp_socket_loop_balanced iface (res r)
                (add_events w [Sys c r])) as (new & Hw & _ & Hout).
    exists (Sys c r :: new). rewrite Hw, add_events_app.
    split; [reflexivity |].
    destruct (make_udp_socket_loop _ _ _ _).1;
      [exact Hout | exact (proj1 Hout) | exact Hout].
  - exists [Sys c r]. split; reflexivity.
Qed.

(** The descriptors of [make_tcp_listener].  Whatever the kernel
    answers, the factory returns or throws; every descriptor it opened
    and does not return it has closed, in the order it opened them; and it
    frees the address list exactly once if the look-up succeeded, and
    not at all if it failed. *)
Theorem make_tcp_listener_descriptors (iface : string) (port backlog : Z)
    (w : World) :
  ∃ new : list event,
    (make_tcp_listener os gai_strerror iface port backlog w).2
    = add_events w new
    ∧ freed new
      = (if ret (os (events w) (getaddrinfo_call iface port SOCK_STREAM)) =? 0
         then 1%nat else 0%nat)
    ∧ match (make_tcp_listener os gai_strerror iface port backlog w).1 with
      | Returned l => opened new = closed new ++ [listener_sockfd l]
      | Thrown _ => opened new = closed new
      | Undefined _ => False
      end.
Proof.
  rewrite make_tcp_listener_run.
  set (c := getaddrinfo_call _ _ _). set (r := os (events w) c).
  destruct (Z.eqb_spec (ret r) 0) as [Hz | Hnz].
  - destruct (make_tcp_listener_loop_balanced iface backlog (res r)
                (add_events w [Sys c r])) as (new & Hw & Hfreed & Hout).
    exists (Sys c r :: new).
    rewrite Hw, add_events_app. split; [reflexivity |].
    split; [exact Hfreed |].
    destruct (make_tcp_listener_loop _ _ _ _ _).1;
      [exact Hout | exact (proj1 Hout) | exact Hout].
  - exists [Sys c r]. split; [reflexivity | split; reflexivity].
Qed.

(** The descriptors of [make_udp_socket], in the same way. *)
Theorem make_udp_socket_descriptors (iface : string) (port : Z) (w : World) :
  ∃ new : list event,
    (make_udp_socket os gai_strerror iface port w).2 = add_events w new
    ∧ freed new
      = (if ret (os (events w) (getaddrinfo_call iface port SOCK_DGRAM)) =? 0
         then 1%nat else 0%nat)
    ∧ match (make_udp_socket os gai_strerror iface port w).1 with
      | Returned s => opened new = closed new ++ [udp_sockfd s]
      | Thrown _ => opened new = closed new
      | Undefined _ => False
      end.
Proof.
  rewrite make_udp_socket_run.
  set (c := getaddrinfo_call _ _ _). set (r := os (events w) c).
  destruct (Z.eqb_spec (ret r) 0) as [Hz | Hnz].
  - destruct (make_udp_socket_loop_balanced iface (res r)
                (add_events w [Sys c r])) as (new & Hw & Hfreed & Hout).
    exists (Sys c r :: new).
    rewrite Hw, add_events_app. split; [reflexivity |].
    split; [exact Hfreed |].
    destruct (make_udp_socket_loop _ _ _ _).1;
      [exact Hout | exact (proj1 Hout) | exact Hout].
  - exists [Sys c r]. split; [reflexivity | split; reflexivity].
Qed.

(** An empty answer of the look-up is an error of its own: the factories
    free the list and throw "Failed to listen to interface: '<iface>'"
    without having created a socket. *)
Theorem factories_no_candidate (iface : string) (port backlog : Z)
    (w : World) (tcp udp : reply) :
  tcp = os (events w) (getaddrinfo_call iface port SOCK_STREAM) →
  udp = os (events w) (getaddrinfo_call iface port SOCK_DGRAM) →
  (ret tcp = 0 → res tcp = [] →
   ∃ w',
     make_tcp_listener os gai_strerror iface port backlog w
     = (Thrown (runtime_error
                  ("Failed to listen to interface: '" +:+ iface +:+ "'")), w')
     ∧ opened (drop (length (events w)) (events w')) = []
     ∧ freed (drop (length (events w)) (events w')) = 1%nat)
  ∧ (ret udp = 0 → res udp = [] →
     ∃ w',
       make_udp_socket os gai_strerror iface port w
       = (Thrown (runtime_error
                    ("Failed to listen to interface: '" +:+ iface +:+ "'")), w')
       ∧ opened (drop (length (events w)) (events w')) = []
       ∧ freed (drop (length (events w)) (events w')) = 1%nat).
Proof.
  intros -> ->.
  unfold make_tcp_listener, make_udp_socket, lookup_addresses,
    getaddrinfo_call.
  split; intros Hz Hres; unfold m_bind at 1;
    rewrite (m_bind_run _ _ _ _ _ (sys_run _ _)); rewrite Hz, Hres; simpl;
    rewrite (m_bind_run _ _ _ _ _ (sys_run _ _));
    (eexists; split; [reflexivity |]); simpl;
    rewrite <- app_assoc, drop_app_length; auto.
Qed.

(** A handle made by a factory and then destroyed leaves no descriptor
    behind: over the factory call and the destructor together, the
    descriptors closed are the descriptors opened, each once and in the
    same order; this holds as well when the factory throws. *)
Theorem handle_lifetime_closes_once (iface : string) (port backlog : Z)
    (w : World) :
  (∃ new : list event,
     ((l <- make_tcp_listener os gai_strerror iface port backlog ;;
       TcpListener_dtor os l) w).2 = add_events w new
     ∧ opened new = closed new)
  ∧ (∃ new : list event,
       ((s <- make_udp_socket os gai_strerror iface port ;;
         Socket_dtor os (udp_sockfd s)) w).2 = add_events w new
       ∧ opened new = closed new).
Proof.
  split.
  - destruct (make_tcp_listener_ledger iface port backlog w)
      as (new & Hw & Hout).
    destruct (make_tcp_listener os gai_strerror iface port backlog w)
      as [[l | e | u] w1] eqn:E; simpl in Hw, Hout; [| | tauto].
    + rewrite (m_bind_run _ _ _ _ _ E). unfold TcpListener_dtor.
      rewrite (m_bind_run _ _ _ _ _ (sys_run _ _)). subst w1.
      eexists. rewrite add_events_app. split; [reflexivity |].
      rewrite opened_app, closed_app, Hout. simpl. by rewrite app_nil_r.
    + unfold m_bind. rewrite E. by exists new.
  - destruct (make_udp_socket_ledger iface port w)
      as (new & Hw & Hout).
    destruct (make_udp_socket os gai_strerror iface port w)
      as [[s | e | u] w1] eqn:E; simpl in Hw, Hout; [| | tauto].
    + rewrite (m_bind_run _ _ _ _ _ E). unfold Socket_dtor.
      rewrite (m_bind_run _ _ _ _ _ (sys_run _ _)). subst w1.
      eexists. rewrite add_events_app. split; [reflexivity |].
      rewrite opened_app, closed_app, Hout. simpl. by rewrite app_nil_r.
    + unfold m_bind. rewrite E. by exists new.
Qed.


Lemma make_tcp_listener_loop_bound (iface : string) (backlog : Z)
    (rp : list addrinfo) :
  ∀ (w w' : World) (l : TcpListener),
    make_tcp_listener_loop os iface backlog rp w = (Returned l, w') →
    ∃ (pre : list event) (a : addrinfo) (s so b li fr : reply),
      events w'
      = events w ++ pre ++
        [Sys (sys_socket (ai_family a) (ai_socktype a) (ai_protocol a)) s;
         Sys (sys_setsockopt (ret s) SOL_SOCKET
                             (Z.lor SO_REUSEADDR SO_REUSEPORT) 1) so;
         Sys (sys_bind (ret s) (ai_addr a) (ai_addrlen a)) b;
         Sys (sys_listen (ret s) backlog) li;
         Sys lib_freeaddrinfo fr]
      ∧ listener_sockfd l = ret s
      ∧ a ∈ rp ∧ 0 ≤ ret s ∧ 0 ≤ ret b ∧ 0 ≤ ret li.
Proof.
  induction rp as [| a rest IH]; intros w w' l.
  - simpl. rewrite (m_bind_run _ _ _ _ _ (sys_run _ _)). discriminate.
  - assert (Hlater : ∀ (pre1 : list event),
              make_tcp_listener_loop os iface backlog rest (add_events w pre1)
              = (Returned l, w') →
              ∃ (pre : list event) (a0 : addrinfo) (s so b li fr : reply),
                events w'
                = events w ++ pre ++
                  [Sys (sys_socket (ai_family a0) (ai_socktype a0)
                                   (ai_protocol a0)) s;
                   Sys (sys_setsockopt (ret s) SOL_SOCKET
                                       (Z.lor SO_REUSEADDR SO_REUSEPORT) 1) so;
                   Sys (sys_bind (ret s) (ai_addr a0) (ai_addrlen a0)) b;
                   Sys (sys_listen (ret s) backlog) li;
                   Sys lib_freeaddrinfo fr]
                ∧ listener_sockfd l = ret s
                ∧ a0 ∈ a :: rest ∧ 0 ≤ ret s ∧ 0 ≤ ret b ∧ 0 ≤ ret li).
    { intros pre1 Hrun.
      destruct (IH _ _ _ Hrun)
        as (pre & a0 & s & so & b & li & fr & Hev & Hfd & Hin & Hrest).
      exists (pre1 ++ pre), a0, s, so, b, li, fr.
      split; [| split; [exact Hfd | split; [| exact Hrest]]].
      - rewrite Hev. simpl. by rewrite <- !app_assoc.
      - by apply list_elem_of_further. }
    simpl. rewrite (m_bind_run _ _ _ _ _ (sys_run _ _)).
    set (s := os (events w) _).
    destruct (Z.ltb_spec (ret s) 0) as [Hs | Hs]; [apply Hlater |].
    rewrite (m_bind_run _ _ _ _ _ (sys_run _ _)).
    rewrite (m_bind_run _ _ _ _ _ (sys_run _ _)).
    match goal with |- context [ret ?r <? 0] => set (b := r) end.
    destruct (Z.ltb_spec (ret b) 0) as [Hb | Hb].
    { rewrite (m_bind_run _ _ _ _ _ (sys_run _ _)).
      rewrite !add_events_app. apply Hlater. }
    rewrite (m_bind_run _ _ _ _ _ (sys_run _ _)).
    match goal with |- context [ret ?r <? 0] => set (li := r) end.
    destruct (Z.ltb_spec (ret li) 0) as [Hl | Hl].
    { rewrite (m_bind_run _ _ _ _ _ (sys_run _ _)).
      rewrite !add_events_app. apply Hlater. }
    rewrite (m_bind_run _ _ _ _ _ (sys_run _ _)).
    rewrite !add_events_app. unfold m_pure. intros [= <- <-].
    eexists [], a, s, _, b, li, _. simpl.
    split; [reflexivity |]. split; [reflexivity |].
    split; [apply list_elem_of_here | auto].
Qed.

Lemma make_udp_socket_loop_bound (iface : string) (rp : list addrinfo) :
  ∀ (w w' : World) (u : UdpSocket),
    make_udp_socket_loop os iface rp w = (Returned u, w') →
    ∃ (pre : list event) (a : addrinfo) (s so b fr : reply),
      events w'
      = events w ++ pre ++
        [Sys (sys_socket (ai_family a) (Z.lor (ai_socktype a) SOCK_NONBLOCK)
                         (ai_protocol a)) s;
         Sys (sys_setsockopt (ret s) SOL_SOCKET
                             (Z.lor SO_REUSEADDR SO_REUSEPORT) 1) so;
         Sys (sys_bind (ret s) (ai_addr a) (ai_addrlen a)) b;
         Sys lib_freeaddrinfo fr]
      ∧ udp_sockfd u = ret s
      ∧ a ∈ rp ∧ 0 ≤ ret s ∧ 0 ≤ ret b.
Proof.
  induction rp as [| a rest IH]; intros w w' u.
  - simpl. rewrite (m_bind_run _ _ _ _ _ (sys_run _ _)). discriminate.
  - assert (Hlater : ∀ (pre1 : list event),
              make_udp_socket_loop os iface rest (add_events w pre1)
              = (Returned u, w') →
              ∃ (pre : list event) (a0 : addrinfo) (s so b fr : reply),
                events w'
                = events w ++ pre ++
                  [Sys (sys_socket (ai_family a0)
                                   (Z.lor (ai_socktype a0) SOCK_NONBLOCK)
                                   (ai_protocol a0)) s;
                   Sys (sys_setsockopt (ret s) SOL_SOCKET
                                       (Z.lor SO_REUSEADDR SO_REUSEPORT) 1) so;
                   Sys (sys_bind (ret s) (ai_addr a0) (ai_addrlen a0)) b;
                   Sys lib_freeaddrinfo fr]
                ∧ udp_sockfd u = ret s
                ∧ a0 ∈ a :: rest ∧ 0 ≤ ret s ∧ 0 ≤ ret b).
    { intros pre1 Hrun.
      destruct (IH _ _ _ Hrun)
        as (pre & a0 & s & so & b & fr & Hev & Hfd & Hin & Hrest).
      exists (pre1 ++ pre), a0, s, so, b, fr.
      split; [| split; [exact Hfd | split; [| exact Hrest]]].
      - rewrite Hev. simpl. by rewrite <- !app_assoc.
      - by apply list_elem_of_further. }
    simpl. rewrite (m_bind_run _ _ _ _ _ (sys_run _ _)).
    set (s := os (events w) _).
    destruct (Z.ltb_spec (ret s) 0) as [Hs | Hs]; [apply Hlater |].
    rewrite (m_bind_run _ _ _ _ _ (sys_run _ _)).
    rewrite (m_bind_run _ _ _ _ _ (sys_run _ _)).
    match goal with |- context [ret ?r <? 0] => set (b := r) end.
    destruct (Z.ltb_spec (ret b) 0) as [Hb | Hb].
    { rewrite (m_bind_run _ _ _ _ _ (sys_run _ _)).
      rewrite !add_events_app. apply Hlater. }
    rewrite (m_bind_run _ _ _ _ _ (sys_run _ _)).
    rewrite !add_events_app. unfold m_pure. intros [= <- <-].
    eexists [], a, s, _, b, _. simpl.
    split; [reflexivity |]. split; [reflexivity |].
    split; [apply list_elem_of_here | auto].
Qed.

(** A handle a factory returns is ready for use.  The log of the call
    ends with the steps that made it, all on the returned descriptor and
    for one of the candidates of the look-up: [socket], the reuse options
    set, a [bind] that succeeded and, for a listener, a [listen] with the
    given backlog that succeeded; then the address list is freed. *)
Theorem factory_handles_are_bound (iface : string) (port backlog : Z)
    (w : World) :
  (∀ (l : TcpListener) (w' : World),
     make_tcp_listener os gai_strerror iface port backlog w = (Returned l, w') →
     ∃ (pre : list event) (a : addrinfo) (s so b li fr : reply),
       events w'
       = events w ++ pre ++
         [Sys (sys_socket (ai_family a) (ai_socktype a) (ai_protocol a)) s;
          Sys (sys_setsockopt (ret s) SOL_SOCKET
                              (Z.lor SO_REUSEADDR SO_REUSEPORT) 1) so;
          Sys (sys_bind (ret s) (ai_addr a) (ai_addrlen a)) b;
          Sys (sys_listen (ret s) backlog) li;
          Sys lib_freeaddrinfo fr]
       ∧ listener_sockfd l = ret s
       ∧ a ∈ res (os (events w) (getaddrinfo_call iface port SOCK_STREAM))
       ∧ 0 ≤ ret s ∧ 0 ≤ ret b ∧ 0 ≤ ret li)
  ∧ (∀ (u : UdpSocket) (w' : World),
       make_udp_socket os gai_strerror iface port w = (Returned u, w') →
       ∃ (pre : list event) (a : addrinfo) (s so b fr : reply),
         events w'
         = events w ++ pre ++
           [Sys (sys_socket (ai_family a)
                            (Z.lor (ai_socktype a) SOCK_NONBLOCK)
                            (ai_protocol a)) s;
            Sys (sys_setsockopt (ret s) SOL_SOCKET
                                (Z.lor SO_REUSEADDR SO_REUSEPORT) 1) so;
            Sys (sys_bind (ret s) (ai_addr a) (ai_addrlen a)) b;
            Sys lib_freeaddrinfo fr]
         ∧ udp_sockfd u = ret s
         ∧ a ∈ res (os (events w) (getaddrinfo_call iface port SOCK_DGRAM))
         ∧ 0 ≤ ret s ∧ 0 ≤ ret b).
Proof.
  split.
  - intros l w'. rewrite make_tcp_listener_run.
    destruct (ret _ =? 0); [| discriminate].
    intros Hrun.
    destruct (make_tcp_listener_loop_bound _ _ _ _ _ _ Hrun)
      as (pre & a & s & so & b & li & fr & Hev & Hrest).
    eexists (_ :: pre), a, s, so, b, li, fr.
    split; [| exact Hrest].
    rewrite Hev. simpl. by rewrite <- app_assoc.
  - intros u w'. rewrite make_udp_socket_run.
    destruct (ret _ =? 0); [| discriminate].
    intros Hrun.
    destruct (make_udp_socket_loop_bound _ _ _ _ _ Hrun)
      as (pre & a & s & so & b & fr & Hev & Hrest).
    eexists (_ :: pre), a, s, so, b, fr.
    split; [| exact Hrest].
    rewrite Hev. simpl. by rewrite <- app_assoc.
Qed.

End SocketLifecycle.

(** * Further properties of the messaging operations *)

Lemma signals_on_message (thread_id : nat) (msgs : list ptr) :
  signals (on_message_fn thread_id <$> msgs) = [].
Proof. induction msgs as [| m rest IH]; [reflexivity | exact IH]. Qed.

Section ReactorFurther.

Variable max_nr_threads : nat.
Variable K : nat.
Variable os : kernel.

Implicit Types (w : World) (q : Queue) (r : Reactor) (i j : nat).

Lemma seq_in_bounds (n : nat) :
  (n ≤ max_nr_threads)%nat →
  Forall (λ other, other < max_nr_threads)%nat (seq 0 n).
Proof.
  intros Hn. apply Forall_forall. intros o Ho. apply elem_of_seq in Ho. lia.
Qed.

Lemma waiting_nil w (thread_id : nat) (others : list nat) :
  waiting K w thread_id others = [] ↔
  ∀ other q, other ∈ others → cell w thread_id other = Some q →
             contents K q = [].
Proof.
  induction others as [| o rest IH].
  - split; [| reflexivity]. intros _ other q Hin. by apply elem_of_nil in Hin.
  - rewrite waiting_cons. split.
    + intros H. apply app_eq_nil in H as [Ho Hrest].
      intros other q Hin Hc. apply elem_of_cons in Hin as [-> | Hin].
      * by rewrite Hc in Ho.
      * by apply (proj1 IH Hrest other q).
    + intros H.
      assert (Hrest : waiting K w thread_id rest = []).
      { apply IH. intros other q Hin. apply H. by apply list_elem_of_further. }
      rewrite Hrest, app_nil_r.
      destruct (cell w thread_id o) as [q |] eqn:Hc; [| reflexivity].
      simpl. apply (H o q); [apply list_elem_of_here | exact Hc].
Qed.

(** [poll_messages] within the tables, with all it leaves behind. *)
Lemma poll_messages_run r w :
  world_ok max_nr_threads K w →
  (_thread_id r < max_nr_threads)%nat →
  (_nr_threads r ≤ max_nr_threads)%nat →
  ∃ w',
    poll_messages K r w = (Returned (bool_decide (pending K w r ≠ [])), w')
    ∧ events w' = events w ++ (on_message_fn (_thread_id r) <$> pending K w r)
    ∧ pending K w' r = []
    ∧ (∀ i j, i ≠ _thread_id r → cell w' i j = cell w i j)
    ∧ _pthread_ids w' = _pthread_ids w
    ∧ _thread_is_sleeping w' = _thread_is_sleeping w
    ∧ world_ok max_nr_threads K w'.
Proof.
  intros Hok Ht Hn.
  destruct (poll_messages_loop_spec max_nr_threads K r (seq 0 (_nr_threads r))
              Ht (seq_in_bounds _ Hn) (NoDup_seq _ _) false w Hok)
    as (w' & Hrun & Hev & Hempty & Hsame & Hids & Hsl & Hok').
  exists w'. split; [exact Hrun |]. split; [exact Hev |].
  split; [| split; [| auto]].
  - apply waiting_nil. intros o q Ho Hc.
    apply list_elem_of_filter in Ho as [Hne Ho].
    destruct (Hempty o Ho Hne) as (q' & Hc' & Hnil). congruence.
  - intros i j Hi. apply Hsame. auto.
Qed.

(** [has_messages] within the tables answers whether the mailbox is
    non-empty. *)
Lemma has_messages_run r w :
  world_ok max_nr_threads K w →
  (_thread_id r < max_nr_threads)%nat →
  (_nr_threads r ≤ max_nr_threads)%nat →
  has_messages K r w = (Returned (bool_decide (pending K w r ≠ [])), w).
Proof.
  intros Hok Ht Hn.
  destruct (has_messages_loop_spec max_nr_threads K r (seq 0 (_nr_threads r))
              w Hok Ht (seq_in_bounds _ Hn)) as (b & Hrun & Hb).
  unfold has_messages. rewrite Hrun. do 2 f_equal.
  destruct b.
  - symmetry. apply bool_decide_eq_true_2. intros Hnil.
    destruct (proj1 Hb eq_refl) as (o & q & Hin & Hne & Hc & Hq).
    apply Hq. apply (proj1 (waiting_nil w (_thread_id r) (peers r)) Hnil o q);
      [| exact Hc].
    apply list_elem_of_filter. auto.
  - symmetry. apply bool_decide_eq_false_2. intros Hnn. apply Hnn.
    apply waiting_nil. intros o q Ho Hc.
    apply list_elem_of_filter in Ho as [Hne Ho].
    destruct (contents K q) as [| m l] eqn:Hq; [reflexivity |].
    assert (Htrue : false = true); [| discriminate].
    apply Hb. exists o, q. rewrite Hq. auto.
Qed.

(** Polling twice in a row: the second [poll_messages] finds nothing,
    returns false and calls the callback for no message. *)
Theorem poll_messages_twice r w :
  world_ok max_nr_threads K w →
  (_thread_id r < max_nr_threads)%nat →
  (_nr_threads r ≤ max_nr_threads)%nat →
  ∃ (b : bool) (w1 w2 : World),
    poll_messages K r w = (Returned b, w1)
    ∧ poll_messages K r w1 = (Returned false, w2)
    ∧ events w2 = events w1.
Proof.
  intros Hok Ht Hn.
  destruct (poll_messages_run r w Hok Ht Hn)
    as (w1 & Hrun1 & _ & Hnil & _ & _ & _ & Hok1).
  destruct (poll_messages_run r w1 Hok1 Ht Hn) as (w2 & Hrun2 & Hev2 & _).
  rewrite Hnil in Hrun2, Hev2. simpl in Hev2. rewrite app_nil_r in Hev2.
  eauto 10.
Qed.

(** [has_messages] foretells [poll_messages]: on the same world both
    return the same boolean, and right after a poll [has_messages]
    returns false. *)
Theorem has_messages_foretells_poll r w :
  world_ok max_nr_threads K w →
  (_thread_id r < max_nr_threads)%nat →
  (_nr_threads r ≤ max_nr_threads)%nat →
  ∃ (b : bool) (w1 : World),
    has_messages K r w = (Returned b, w)
    ∧ poll_messages K r w = (Returned b, w1)
    ∧ has_messages K r w1 = (Returned false, w1).
Proof.
  intros Hok Ht Hn.
  destruct (poll_messages_run r w Hok Ht Hn)
    as (w1 & Hrun1 & _ & Hnil & _ & _ & _ & Hok1).
  exists (bool_decide (pending K w r ≠ [])), w1.
  split; [by apply has_messages_run |]. split; [exact Hrun1 |].
  rewrite (has_messages_run r w1 Hok1 Ht Hn), Hnil. reflexivity.
Qed.

(** [poll_messages] keeps to its own row: it sends no signal and makes
    no system call (all it adds to the log are calls of its own message
    callback), it leaves every sleep flag and thread identity as it was,
    and it leaves the cells of every other recipient alone. *)
Theorem poll_messages_quiet r w :
  world_ok max_nr_threads K w →
  (_thread_id r < max_nr_threads)%nat →
  (_nr_threads r ≤ max_nr_threads)%nat →
  ∃ (b : bool) (w1 : World) (new : list event),
    poll_messages K r w = (Returned b, w1)
    ∧ events w1 = events w ++ new
    ∧ Forall (λ e, ∃ msg, e = on_message_fn (_thread_id r) msg) new
    ∧ signals new = []
    ∧ _thread_is_sleeping w1 = _thread_is_sleeping w
    ∧ _pthread_ids w1 = _pthread_ids w
    ∧ ∀ i j, i ≠ _thread_id r → cell w1 i j = cell w i j.
Proof.
  intros Hok Ht Hn.
  destruct (poll_messages_run r w Hok Ht Hn)
    as (w1 & Hrun1 & Hev & _ & Hsame & Hids & Hsl & _).
  exists (bool_decide (pending K w r ≠ [])), w1,
    (on_message_fn (_thread_id r) <$> pending K w r).
  split; [exact Hrun1 |]. split; [exact Hev |].
  split.
  { apply Forall_fmap, Forall_forall. intros m _. by exists m. }
  split; [apply signals_on_message |]. auto.
Qed.

(** Polling makes room: once the recipient has polled, a [send_msg] to
    it from any of its peers is accepted, provided cells have at least
    one slot. *)
Theorem poll_messages_makes_room r (producer : Reactor) (msg : ptr) w :
  world_ok max_nr_threads K w →
  (_thread_id r < max_nr_threads)%nat →
  (_nr_threads r ≤ max_nr_threads)%nat →
  (0 < K)%nat →
  (_thread_id producer < _nr_threads r)%nat →
  _thread_id producer ≠ _thread_id r →
  ∃ (b : bool) (w1 w2 : World),
    poll_messages K r w = (Returned b, w1)
    ∧ send_msg K os producer (_thread_id r) msg w1 = (Returned true, w2).
Proof.
  intros Hok Ht Hn HK Hp Hne.
  destruct (poll_messages_run r w Hok Ht Hn)
    as (w1 & Hrun1 & _ & Hnil & _ & _ & _ & Hok1).
  destruct (cell_is_Some max_nr_threads K w1 (_thread_id r)
              (_thread_id producer) Hok1 Ht) as (q & Hcell & Hq); [lia |].
  assert (Hempty : contents K q = []).
  { apply (proj1 (waiting_nil w1 (_thread_id r) (peers r)) Hnil
             (_thread_id producer) q); [| exact Hcell].
    apply list_elem_of_filter. split; [exact Hne |]. apply elem_of_seq. lia. }
  destruct (send_msg_cases max_nr_threads K os producer (_thread_id r) msg
              w1 q Hok1 (not_eq_sym Hne) Hcell) as [_ Hroom].
  destruct Hroom as (w2 & ? & ? & ? & Hsend & _).
  { unfold queue_full. rewrite <- (contents_length K), Hempty. simpl. lia. }
  eauto 10.
Qed.


(** *** The tables stay well-formed *)


Lemma store_sleeping_run w i (b b0 : bool) :
  _thread_is_sleeping w !! i = Some b0 →
  store_sleeping i b w
  = (Returned (),
     mkWorld (_pthread_ids w) (<[i := b]> (_thread_is_sleeping w))
             (_msg_queues w) (events w)).
Proof. unfold store_sleeping. by intros ->. Qed.

Lemma store_pthread_id_run w i (t t0 : pthread_t) :
  _pthread_ids w !! i = Some t0 →
  store_pthread_id i t w
  = (Returned (),
     mkWorld (<[i := t]> (_pthread_ids w)) (_thread_is_sleeping w)
             (_msg_queues w) (events w)).
Proof. unfold store_pthread_id. by intros ->. Qed.

(** All the ways [Reactor::Reactor] can go, for a thread id within the
    tables. *)
Lemma Reactor_ctor_run (thread_id nr_threads : nat) w :
  world_ok max_nr_threads K w →
  (thread_id < max_nr_threads)%nat →
  ∃ a m self : reply,
    Reactor_ctor os thread_id nr_threads w
    = if ret a <? 0
      then (Thrown (system_error (errno a) "sigaction"),
            add_events w
              [Sys (sys_sigaction SIGUSR1 (Z.lor SA_SIGINFO SA_RESTART)) a])
      else if ret m <? 0
      then (Thrown (system_error (errno m) "pthread_sigmask"),
            add_events w
              [Sys (sys_sigaction SIGUSR1 (Z.lor SA_SIGINFO SA_RESTART)) a;
               Sys (sys_pthread_sigmask SIG_BLOCK SIGUSR1) m])
      else (Returned (mkReactor thread_id nr_threads),
            mkWorld (<[thread_id := ret self]> (_pthread_ids w))
                    (<[thread_id := false]> (_thread_is_sleeping w))
                    (_msg_queues w)
                    (events w ++
                     [Sys (sys_sigaction SIGUSR1 (Z.lor SA_SIGINFO SA_RESTART)) a;
                      Sys (sys_pthread_sigmask SIG_BLOCK SIGUSR1) m;
                      Sys sys_pthread_self self])).
Proof.
  intros (Hids & Hsl & _) Ht.
  destruct (lookup_lt_is_Some_2 (_thread_is_sleeping w) thread_id)
    as [b0 Hb0]; [lia |].
  destruct (lookup_lt_is_Some_2 (_pthread_ids w) thread_id)
    as [t0 Ht0]; [lia |].
  unfold Reactor_ctor.
  rewrite (m_bind_run _ _ _ _ _ (sys_run os _ _)).
  set (a := os (events w) _). exists a.
  destruct (Z.ltb_spec (ret a) 0) as [Ha | Ha].
  { exists a, a. reflexivity. }
  rewrite (m_bind_run _ _ _ _ _ (sys_run os _ _)).
  match goal with |- context [ret ?x <? 0] => set (m := x) end. exists m.
  destruct (Z.ltb_spec (ret m) 0) as [Hm | Hm].
  { exists a. unfold throw. rewrite add_events_app. reflexivity. }
  erewrite m_bind_run; [| by eapply store_sleeping_run].
  rewrite (m_bind_run _ _ _ _ _ (sys_run os _ _)).
  match goal with |- context [store_pthread_id _ (ret ?x)] => set (self := x) end.
  exists self.
  erewrite m_bind_run; [| by eapply store_pthread_id_run].
  unfold m_pure. simpl. rewrite <- !app_assoc. reflexivity.
Qed.


(** A [send_msg] between threads within the tables stays within them. *)
Lemma send_msg_defined r (remote_id : nat) (msg : ptr) w :
  world_ok max_nr_threads K w →
  (_thread_id r < max_nr_threads)%nat →
  (remote_id < max_nr_threads)%nat →
  ∀ u, (send_msg K os r remote_id msg w).1 ≠ Undefined u.
Proof.
  intros Hok Ht Hr u.
  destruct (decide (remote_id = _thread_id r)) as [He | Hne].
  { unfold send_msg. by rewrite decide_True. }
  destruct (cell_is_Some max_nr_threads K w remote_id (_thread_id r) Hok Hr Ht)
    as (q & Hcell & Hq).
  destruct (send_msg_cases max_nr_threads K os r remote_id msg w q
              Hok Hne Hcell) as [Hfull Hroom].
  destruct (decide (K ≤ qsize q)%nat) as [Hf | Hf].
  - by rewrite (Hfull Hf).
  - destruct (Hroom Hf) as (w' & ? & ? & ? & -> & _). discriminate.
Qed.


(** What construction does to the tables, for a thread id within them.
    It never touches the mailbox fabric and sends no signal.  If it
    throws, it is the system error of [sigaction] or [pthread_sigmask]
    and the sleep flags and thread identities are untouched.  If it
    returns, the reactor carries the given id and thread count, the
    thread's sleep flag is false and its published identity is the
    answer of [pthread_self]; no other entry has changed. *)
Theorem Reactor_ctor_effect (thread_id nr_threads : nat) w :
  world_ok max_nr_threads K w →
  (thread_id < max_nr_threads)%nat →
  ∃ new : list event,
    events (Reactor_ctor os thread_id nr_threads w).2 = events w ++ new
    ∧ signals new = []
    ∧ _msg_queues (Reactor_ctor os thread_id nr_threads w).2 = _msg_queues w
    ∧ match (Reactor_ctor os thread_id nr_threads w).1 with
      | Returned r =>
          r = mkReactor thread_id nr_threads
          ∧ _thread_is_sleeping (Reactor_ctor os thread_id nr_threads w).2
            = <[thread_id := false]> (_thread_is_sleeping w)
          ∧ ∃ self : reply,
              Sys sys_pthread_self self ∈ new
              ∧ _pthread_ids (Reactor_ctor os thread_id nr_threads w).2
                = <[thread_id := ret self]> (_pthread_ids w)
      | Thrown e =>
          (∃ code, e = system_error code "sigaction"
                   ∨ e = system_error code "pthread_sigmask")
          ∧ _thread_is_sleeping (Reactor_ctor os thread_id nr_threads w).2
            = _thread_is_sleeping w
          ∧ _pthread_ids (Reactor_ctor os thread_id nr_threads w).2
            = _pthread_ids w
      | Undefined _ => False
      end.
Proof.
  intros Hok Ht.
  destruct (Reactor_ctor_run thread_id nr_threads w Hok Ht)
    as (a & m & self & ->).
  destruct (ret a <? 0); [| destruct (ret m <? 0)]; simpl;
    (eexists; split; [reflexivity |]); simpl; repeat split; eauto.
  exists self. split; [| reflexivity].
  rewrite !elem_of_cons. auto.
Qed.


(** *** Sending in bursts *)

(** A burst of sends from one producer to one recipient, in full: which
    messages are taken, what is logged, and what becomes of the
    recipient's sleep flag. *)
Lemma send_each_run r (remote_id : nat) (msgs : list ptr) :
  remote_id ≠ _thread_id r →
  ∀ w q (sleeping : bool) (t : pthread_t),
    world_ok max_nr_threads K w →
    cell w remote_id (_thread_id r) = Some q →
    _thread_is_sleeping w !! remote_id = Some sleeping →
    _pthread_ids w !! remote_id = Some t →
    ∃ w' : World,
      send_each K os r remote_id msgs w
      = (Returned (take (K - qsize q) msgs), w')
      ∧ events w'
        = events w ++
          (if sleeping && bool_decide (take (K - qsize q) msgs ≠ [])
           then [Sys (sys_pthread_kill t SIGUSR1)
                     (os (events w) (sys_pthread_kill t SIGUSR1))]
           else [])
      ∧ _thread_is_sleeping w' !! remote_id
        = Some (sleeping && bool_decide (take (K - qsize q) msgs = [])).
Proof.
  intros Hne. induction msgs as [| msg rest IH];
    intros w q sleeping t Hok Hcell Hsl Hid.
  - exists w. simpl. rewrite take_nil. simpl.
    rewrite andb_false_r, app_nil_r, andb_true_r. auto.
  - destruct (send_msg_cases max_nr_threads K os r remote_id msg w q
                Hok Hne Hcell) as [Hfull Hroom].
    simpl. destruct (decide (K ≤ qsize q)%nat) as [Hf | Hf].
    + rewrite (m_bind_run _ _ _ _ _ (Hfull Hf)).
      destruct (IH w q sleeping t Hok Hcell Hsl Hid) as (w' & Hrun & Hev & Hfl).
      rewrite (m_bind_run _ _ _ _ _ Hrun).
      replace (K - qsize q)%nat with 0%nat in * by (unfold queue_full in Hf; lia).
      exists w'. rewrite take_0 in *. auto.
    + destruct (Hroom Hf)
        as (w1 & q1 & sl & t1 & Hrun1 & Hok1 & Hc1 & Hcont1 & _ & Hsl1 & Hid1
            & Hids1 & Hflags1 & Hev1).
      rewrite Hsl in Hsl1. injection Hsl1 as <-.
      rewrite Hid in Hid1. injection Hid1 as <-.
      assert (Hsz : qsize q1 = S (qsize q)).
      { rewrite <- !(contents_length K), Hcont1, length_app. simpl. lia. }
      assert (Hawake : _thread_is_sleeping w1 !! remote_id = Some false).
      { rewrite Hflags1. destruct sleeping; [| exact Hsl].
        apply list_lookup_insert_eq. by eapply lookup_lt_Some. }
      rewrite <- Hids1 in Hid.
      destruct (IH w1 q1 false t Hok1 Hc1 Hawake Hid) as (w' & Hrun & Hev & Hfl).
      rewrite (m_bind_run _ _ _ _ _ Hrun1), (m_bind_run _ _ _ _ _ Hrun).
      unfold queue_full in Hf.
      replace (K - qsize q)%nat with (S (K - qsize q1)) by lia.
      exists w'. simpl.
      rewrite andb_true_r, andb_false_r.
      split; [reflexivity |].
      simpl in Hev, Hfl. rewrite app_nil_r in Hev.
      split; [by rewrite Hev, Hev1 | exact Hfl].
Qed.

(** Filling a cell: of the messages a producer sends in a row, exactly
    the first ones that fit into the free slots of its cell are accepted,
    and the rest are refused. *)
Theorem send_each_fills_free_slots r (remote_id : nat) (msgs : list ptr) w q :
  world_ok max_nr_threads K w →
  remote_id ≠ _thread_id r →
  cell w remote_id (_thread_id r) = Some q →
  (send_each K os r remote_id msgs w).1
  = Returned (take (K - length (contents K q)) msgs).
Proof.
  intros Hok Hne Hcell.
  destruct (cell_Some_inv max_nr_threads K w _ _ q Hok Hcell) as (Hr & _ & _).
  pose proof Hok as (Hids & Hsl & _).
  destruct (lookup_lt_is_Some_2 (_thread_is_sleeping w) remote_id)
    as [sleeping Hsleeping]; [lia |].
  destruct (lookup_lt_is_Some_2 (_pthread_ids w) remote_id)
    as [t Hid]; [lia |].
  destruct (send_each_run r remote_id msgs Hne w q sleeping t Hok Hcell
              Hsleeping Hid) as (w' & -> & _).
  by rewrite contents_length.
Qed.

(** One wake per burst: however many messages a producer sends in a row
    to a recipient, it signals the recipient at most once, namely
    exactly when the recipient's sleep flag was set and at least one
    message was accepted; and once a message has been accepted the flag
    reads false. *)
Theorem send_each_wakes_once r (remote_id : nat) (msgs : list ptr) w q
    (sleeping : bool) (t : pthread_t) :
  world_ok max_nr_threads K w →
  remote_id ≠ _thread_id r →
  cell w remote_id (_thread_id r) = Some q →
  _thread_is_sleeping w !! remote_id = Some sleeping →
  _pthread_ids w !! remote_id = Some t →
  ∃ (accepted : list ptr) (w' : World) (new : list event),
    send_each K os r remote_id msgs w = (Returned accepted, w')
    ∧ events w' = events w ++ new
    ∧ signals new
      = (if sleeping && bool_decide (accepted ≠ [])
         then [(t, SIGUSR1)] else [])
    ∧ (accepted ≠ [] → _thread_is_sleeping w' !! remote_id = Some false).
Proof.
  intros Hok Hne Hcell Hsl Hid.
  destruct (send_each_run r remote_id msgs Hne w q sleeping t Hok Hcell
              Hsl Hid) as (w' & Hrun & Hev & Hfl).
  eexists _, w', _. split; [exact Hrun |]. split; [exact Hev |].
  split.
  - by destruct (sleeping && _).
  - intros Hacc. rewrite Hfl.
    rewrite (bool_decide_eq_false_2 _ Hacc). by rewrite andb_false_r.
Qed.


(** *** What a send leaves alone *)

(** A [send_msg] either leaves the world as it is, or it is an accepted
    send to another thread. *)
Lemma send_msg_any r (remote_id : nat) (msg : ptr) w :
  world_ok max_nr_threads K w →
  (send_msg K os r remote_id msg w).2 = w
  ∨ ∃ (w' : World) (sleeping : bool) (t : pthread_t),
      send_msg K os r remote_id msg w = (Returned true, w')
      ∧ (∀ i j, (i, j) ≠ (remote_id, _thread_id r) → cell w' i j = cell w i j)
      ∧ _thread_is_sleeping w !! remote_id = Some sleeping
      ∧ _pthread_ids w !! remote_id = Some t
      ∧ events w'
        = events w ++
          (if sleeping
           then [Sys (sys_pthread_kill t SIGUSR1)
                     (os (events w) (sys_pthread_kill t SIGUSR1))]
           else []).
Proof.
  intros Hok. destruct (decide (remote_id = _thread_id r)) as [He | Hne].
  { left. unfold send_msg. by rewrite decide_True. }
  destruct (cell w remote_id (_thread_id r)) as [q |] eqn:Hcell.
  - destruct (send_msg_cases max_nr_threads K os r remote_id msg w q
                Hok Hne Hcell) as [Hfull Hroom].
    destruct (decide (K ≤ qsize q)%nat) as [Hf | Hf].
    + left. by rewrite (Hfull Hf).
    + right. destruct (Hroom Hf)
        as (w' & q' & sl & t & Hrun & _ & _ & _ & Hsame & Hsl & Hid & _ & _ & Hev).
      exists w', sl, t. auto.
  - left. unfold send_msg. rewrite decide_False by assumption.
    unfold m_bind, index_msg_queues. by rewrite Hcell.
Qed.

(** A [send_msg] between threads within the tables ends in defined
    behaviour and, whether it throws, is refused or is accepted, changes
    no cell but the one from the sender to the recipient; so it changes
    the mailbox of no reactor other than the recipient, and never the
    sender's own. *)
Theorem send_msg_isolation r (remote_id : nat) (msg : ptr) w (c : Reactor) :
  world_ok max_nr_threads K w →
  (_thread_id r < max_nr_threads)%nat →
  (remote_id < max_nr_threads)%nat →
  (∀ u, (send_msg K os r remote_id msg w).1 ≠ Undefined u)
  ∧ (∀ i j, (i, j) ≠ (remote_id, _thread_id r) →
            cell (send_msg K os r remote_id msg w).2 i j = cell w i j)
  ∧ (_thread_id c ≠ remote_id →
     pending K (send_msg K os r remote_id msg w).2 c = pending K w c)
  ∧ pending K (send_msg K os r remote_id msg w).2 r = pending K w r.
Proof.
  intros Hok Ht Hr.
  assert (Hcells : ∀ i j, (i, j) ≠ (remote_id, _thread_id r) →
            cell (send_msg K os r remote_id msg w).2 i j = cell w i j).
  { destruct (send_msg_any r remote_id msg w Hok)
      as [-> | (w' & sl & t & -> & Hsame & _)]; [reflexivity | exact Hsame]. }
  split; [by apply send_msg_defined |].
  split; [exact Hcells |]. split.
  - intros Hc. apply waiting_ext. intros o _. apply Hcells. congruence.
  - apply waiting_ext. intros o Ho. apply Hcells.
    apply list_elem_of_filter in Ho as [Ho _]. congruence.
Qed.




(** A message that [send_msg] has accepted is seen: right after the send,
    [has_messages] of the recipient returns true. *)
Theorem sent_message_is_seen r (producer : Reactor) (msg : ptr) w w' :
  world_ok max_nr_threads K w →
  (_thread_id r < max_nr_threads)%nat →
  (_nr_threads r ≤ max_nr_threads)%nat →
  (_thread_id producer < _nr_threads r)%nat →
  send_msg K os producer (_thread_id r) msg w = (Returned true, w') →
  has_messages K r w' = (Returned true, w').
Proof.
  intros Hok Ht Hn Hp Hsend.
  assert (Hne : _thread_id r ≠ _thread_id producer).
  { intros He. unfold send_msg in Hsend.
    rewrite decide_True in Hsend by exact He. discriminate. }
  destruct (cell_is_Some max_nr_threads K w (_thread_id r)
              (_thread_id producer) Hok Ht) as (q & Hcell & Hq); [lia |].
  destruct (send_msg_cases max_nr_threads K os producer (_thread_id r) msg
              w q Hok Hne Hcell) as [Hfull Hroom].
  destruct (decide (K ≤ qsize q)%nat) as [Hf | Hf].
  { rewrite (Hfull Hf) in Hsend. discriminate. }
  destruct (Hroom Hf) as (w1 & q1 & sl & t & Hrun & Hok1 & Hc1 & Hcont & _).
  rewrite Hrun in Hsend. injection Hsend as <-.
  rewrite (has_messages_run r w1 Hok1 Ht Hn). do 2 f_equal.
  apply bool_decide_eq_true_2. intros Hnil.
  assert (Hq1 : contents K q1 = []).
  { apply (proj1 (waiting_nil w1 (_thread_id r) (peers r)) Hnil
             (_thread_id producer) q1); [| exact Hc1].
    apply list_elem_of_filter. split; [auto | apply elem_of_seq; lia]. }
  rewrite Hcont in Hq1. by destruct (contents K q).
Qed.


End ReactorFurther.

(** ** The further properties at work *)

Lemma accept_outcome_witness :
  TcpListener_on_read_event (answering 7 0) (mkTcpListener 3) (world_init 2 2)
  = (Returned (),
     add_events (world_init 2 2)
       [Sys (sys_accept4 3 SOCK_NONBLOCK)
            (answering 7 0 [] (sys_accept4 3 SOCK_NONBLOCK));
        accept_fn 7]).
Proof.
  apply (accept_outcome (answering 7 0) (mkTcpListener 3) (world_init 2 2)
           _ eq_refl).
  simpl. lia.
Defined.

Lemma factories_lookup_failure_witness :
  make_udp_socket (answering (-2) 0) (λ _, "Name or service not known")
                  "nowhere" 53 (world_init 2 2)
  = (Thrown (runtime_error "'nowhere': Name or service not known"),
     add_events (world_init 2 2)
       [Sys (getaddrinfo_call "nowhere" 53 SOCK_DGRAM)
            (answering (-2) 0 [] (getaddrinfo_call "nowhere" 53 SOCK_DGRAM))]).
Proof.
  apply (factories_lookup_failure (answering (-2) 0)
           (λ _, "Name or service not known") "nowhere" 53 128
           (world_init 2 2) _ _ eq_refl eq_refl).
  simpl. lia.
Defined.

Lemma factories_no_candidate_witness :
  ∃ w' : World,
    make_tcp_listener (answering 0 0) (λ _, "") "nowhere" 53 128
                      (world_init 2 2)
    = (Thrown (runtime_error "Failed to listen to interface: 'nowhere'"), w')
    ∧ opened (drop (length (events (world_init 2 2))) (events w')) = []
    ∧ freed (drop (length (events (world_init 2 2))) (events w')) = 1%nat.
Proof.
  apply (factories_no_candidate (answering 0 0) (λ _, "") "nowhere" 53 128
           (world_init 2 2) _ _ eq_refl eq_refl); reflexivity.
Defined.

Lemma poll_messages_twice_witness :
  ∃ (b : bool) (w1 w2 : World),
    poll_messages 2 (mkReactor 1 3) two_sent = (Returned b, w1)
    ∧ poll_messages 2 (mkReactor 1 3) w1 = (Returned false, w2)
    ∧ events w2 = events w1.
Proof.
  apply (poll_messages_twice 3 2 (mkReactor 1 3) two_sent).
  - world_ok_by_evaluation.
  - simpl. lia.
  - simpl. lia.
Defined.

Lemma has_messages_foretells_poll_witness :
  ∃ (b : bool) (w1 : World),
    has_messages 2 (mkReactor 1 3) two_sent = (Returned b, two_sent)
    ∧ poll_messages 2 (mkReactor 1 3) two_sent = (Returned b, w1)
    ∧ has_messages 2 (mkReactor 1 3) w1 = (Returned false, w1).
Proof.
  apply (has_messages_foretells_poll 3 2 (mkReactor 1 3) two_sent).
  - world_ok_by_evaluation.
  - simpl. lia.
  - simpl. lia.
Defined.

Lemma poll_messages_quiet_witness :
  ∃ (b : bool) (w1 : World) (new : list event),
    poll_messages 2 (mkReactor 1 3) two_sent = (Returned b, w1)
    ∧ events w1 = events two_sent ++ new
    ∧ Forall (λ e, ∃ msg, e = on_message_fn 1 msg) new
    ∧ signals new = []
    ∧ _thread_is_sleeping w1 = _thread_is_sleeping two_sent
    ∧ _pthread_ids w1 = _pthread_ids two_sent
    ∧ ∀ i j, i ≠ 1%nat → cell w1 i j = cell two_sent i j.
Proof.
  apply (poll_messages_quiet 3 2 (mkReactor 1 3) two_sent).
  - world_ok_by_evaluation.
  - simpl. lia.
  - simpl. lia.
Defined.

Lemma poll_messages_makes_room_witness :
  ∃ (b : bool) (w1 w2 : World),
    poll_messages 2 (mkReactor 1 3) two_sent = (Returned b, w1)
    ∧ send_msg 2 (answering 0 0) (mkReactor 0 3) 1 79 w1 = (Returned true, w2).
Proof.
  apply (poll_messages_makes_room 3 2 (answering 0 0) (mkReactor 1 3)
           (mkReactor 0 3) 79 two_sent).
  - world_ok_by_evaluation.
  - simpl. lia.
  - simpl. lia.
  - lia.
  - simpl. lia.
  - simpl. lia.
Defined.


Lemma Reactor_ctor_effect_witness :
  ∃ new : list event,
    events (Reactor_ctor (answering 0 0) 1 3 two_sent).2
    = events two_sent ++ new
    ∧ signals new = []
    ∧ _msg_queues (Reactor_ctor (answering 0 0) 1 3 two_sent).2
      = _msg_queues two_sent.
Proof.
  destruct (Reactor_ctor_effect 3 2 (answering 0 0) 1 3 two_sent)
    as (new & Hev & Hsig & Hq & _).
  - world_ok_by_evaluation.
  - lia.
  - exists new. auto.
Defined.

Lemma send_each_fills_free_slots_witness :
  (send_each 2 (answering 0 0) (mkReactor 0 3) 1 [77; 78; 79]
             (world_init 3 2)).1
  = Returned [77; 78].
Proof.
  apply (send_each_fills_free_slots 3 2 (answering 0 0) (mkReactor 0 3) 1
           [77; 78; 79] (world_init 3 2) (queue_init 2)).
  - world_ok_by_evaluation.
  - simpl. lia.
  - reflexivity.
Defined.

Lemma send_each_wakes_once_witness :
  ∃ (accepted : list ptr) (w' : World) (new : list event),
    send_each 2 (answering 0 0) (mkReactor 0 3) 1 [77; 78; 79] asleep
    = (Returned accepted, w')
    ∧ events w' = events asleep ++ new
    ∧ signals new
      = (if true && bool_decide (accepted ≠ []) then [(41, SIGUSR1)] else [])
    ∧ (accepted ≠ [] → _thread_is_sleeping w' !! 1%nat = Some false).
Proof.
  apply (send_each_wakes_once 3 2 (answering 0 0) (mkReactor 0 3) 1
           [77; 78; 79] asleep (queue_init 2) true 41).
  - world_ok_by_evaluation.
  - simpl. lia.
  - reflexivity.
  - reflexivity.
  - reflexivity.
Defined.

Lemma send_msg_isolation_witness :
  pending 2 (send_msg 2 (answering 0 0) (mkReactor 0 3) 2 79 two_sent).2
          (mkReactor 1 3)
  = pending 2 two_sent (mkReactor 1 3).
Proof.
  refine (proj1 (proj2 (proj2 (send_msg_isolation 3 2 (answering 0 0)
                                 (mkReactor 0 3) 2 79 two_sent (mkReactor 1 3)
                                 _ _ _))) _).
  - world_ok_by_evaluation.
  - simpl. lia.
  - lia.
  - simpl. lia.
Defined.


Lemma factory_handles_are_bound_witness :
  ∃ (pre : list event) (a : addrinfo) (s so b li fr : reply),
    events (make_tcp_listener friendly (λ _, "") "127.0.0.1" 11211 128
                              (world_init 2 2)).2
    = events (world_init 2 2) ++ pre ++
      [Sys (sys_socket (ai_family a) (ai_socktype a) (ai_protocol a)) s;
       Sys (sys_setsockopt (ret s) SOL_SOCKET
                           (Z.lor SO_REUSEADDR SO_REUSEPORT) 1) so;
       Sys (sys_bind (ret s) (ai_addr a) (ai_addrlen a)) b;
       Sys (sys_listen (ret s) 128) li;
       Sys lib_freeaddrinfo fr]
    ∧ 3 = ret s
    ∧ a ∈ [loopback]
    ∧ 0 ≤ ret s ∧ 0 ≤ ret b ∧ 0 ≤ ret li.
Proof.
  apply (proj1 (factory_handles_are_bound friendly (λ _, "") "127.0.0.1"
                  11211 128 (world_init 2 2))
           (mkTcpListener 3)).
  vm_compute. reflexivity.
Defined.

Lemma sent_message_is_seen_witness :
  has_messages 2 (mkReactor 1 3)
    (send_msg 2 (answering 0 0) (mkReactor 0 3) 1 77 (world_init 3 2)).2
  = (Returned true,
     (send_msg 2 (answering 0 0) (mkReactor 0 3) 1 77 (world_init 3 2)).2).
Proof.
  apply (sent_message_is_seen 3 2 (answering 0 0) (mkReactor 1 3)
           (mkReactor 0 3) 77 (world_init 3 2)).
  - world_ok_by_evaluation.
  - simpl. lia.
  - simpl. lia.
  - simpl. lia.
  - reflexivity.
Defined.
